(** * mento_vc: company-record scrapers and the record store

    A shallow embedding of the three scraper scripts

      - [linkedin_scraper.py]    (class [LinkedInScraper]),
      - [linkedin_yc_search.py]  (class [LinkedInMultiPageSearch]),
      - [yc_scraper.py]          (class [YCScraperUniversal]),

    and the properties their specification states about them.

    Python strings are sequences of Unicode code points; they are modelled
    as lists of code points.  The browser is modelled by what the code
    observes of it (page texts, attempt outcomes), supplied as an oracle. *)

From Stdlib Require Import String Ascii.
From Stdlib Require Import List Bool Arith NArith ZArith Lia.
Import ListNotations.

Set Implicit Arguments.

(* ================================================================== *)
(** * Python strings *)
(* ================================================================== *)

Module Py.

(** A [str] is a list of code points. *)
Definition str := list N.

(** An ASCII literal as a [str]. *)
Definition lit (s : string) : str := map N_of_ascii (list_ascii_of_string s).

Definition str_eq_dec : forall a b : str, {a = b} + {a <> b} :=
  list_eq_dec N.eq_dec.

Definition str_eqb (a b : str) : bool := if str_eq_dec a b then true else false.

(** [x in l] for a list or a set of strings. *)
Definition mem (x : str) (l : list str) : bool :=
  if in_dec str_eq_dec x l then true else false.

Definition between (lo hi c : N) : bool := (lo <=? c)%N && (c <=? hi)%N.

(** ** Character tables

    The tables are those of the Unicode database for the blocks Basic Latin,
    Latin-1 Supplement and Cyrillic (U+0400..U+045F), plus the few code
    points outside them that fold onto ASCII letters.  Code points of other
    blocks are taken as uncased. *)

(** [str.isspace] on one code point; also the class [\s] of [re]. *)
Definition cp_isspace (c : N) : bool :=
  between 9 13 c || between 28 32 c || (c =? 133)%N || (c =? 160)%N
  || (c =? 5760)%N || between 8192 8202 c || (c =? 8232)%N || (c =? 8233)%N
  || (c =? 8239)%N || (c =? 8287)%N || (c =? 12288)%N.

(** The decimal digits [0-9]; the class [\d] of [re] on the modelled blocks. *)
Definition cp_isdigit (c : N) : bool := between 48 57 c.

Definition cp_isupper (c : N) : bool :=
  between 65 90 c || between 192 214 c || between 216 222 c
  || between 1024 1071 c.

Definition cp_islower (c : N) : bool :=
  between 97 122 c || (c =? 170)%N || (c =? 181)%N || (c =? 186)%N
  || between 223 246 c || between 248 255 c || between 1072 1119 c.

Definition cp_iscased (c : N) : bool := cp_isupper c || cp_islower c.

(** Simple (one to one) lower-casing, as [re] uses it under IGNORECASE. *)
Definition cp_lower (c : N) : N :=
  if between 65 90 c then (c + 32)%N
  else if between 192 214 c || between 216 222 c then (c + 32)%N
  else if between 1024 1039 c then (c + 80)%N
  else if between 1040 1071 c then (c + 32)%N
  else if (c =? 304)%N then 105%N          (* U+0130 -> i *)
  else if (c =? 8490)%N then 107%N         (* U+212A KELVIN SIGN -> k *)
  else c.

(** Upper-casing of one code point; U+00DF has a two-letter upper case. *)
Definition cp_upper (c : N) : str :=
  if between 97 122 c then [c - 32]%N
  else if (c =? 181)%N then [924]%N
  else if (c =? 223)%N then [83; 83]%N
  else if between 224 246 c || between 248 254 c then [c - 32]%N
  else if (c =? 255)%N then [376]%N
  else if between 1072 1103 c then [c - 32]%N
  else if between 1104 1119 c then [c - 80]%N
  else [c].

(** Title-casing of one code point: as upper-casing, but U+00DF gives "Ss". *)
Definition cp_title (c : N) : str :=
  if (c =? 223)%N then [83; 115]%N else cp_upper c.

(** Lower-casing of one code point as [str.lower] does it: U+0130 lowers
    to the two code points "i", U+0307. *)
Definition cp_lower_full (c : N) : str :=
  if (c =? 304)%N then [105; 775]%N else [cp_lower c].

(** [s.lower()] *)
Definition lower (s : str) : str := flat_map cp_lower_full s.

(** [s.isupper()]: no lower-case character and at least one upper-case one. *)
Definition isupper (s : str) : bool :=
  forallb (fun c => negb (cp_islower c)) s && existsb cp_isupper s.

(** [s.isdigit()] for strings over the modelled blocks, where the characters
    with the digit property are [0-9] and the superscripts U+00B2, U+00B3,
    U+00B9. *)
Definition cp_isdigit_prop (c : N) : bool :=
  cp_isdigit c || (c =? 178)%N || (c =? 179)%N || (c =? 185)%N.

Definition isdigit (s : str) : bool :=
  match s with [] => false | _ => forallb cp_isdigit_prop s end.

(** ** Trimming *)

Fixpoint lstrip (s : str) : str :=
  match s with
  | c :: s' => if cp_isspace c then lstrip s' else s
  | [] => []
  end.

Definition rstrip (s : str) : str := rev (lstrip (rev s)).

(** [s.strip()] *)
Definition strip (s : str) : str := rstrip (lstrip s).

(** ** Searching *)

(** [s.startswith(p)] *)
Fixpoint startswith (p s : str) : bool :=
  match p, s with
  | [], _ => true
  | a :: p', b :: s' => (a =? b)%N && startswith p' s'
  | _ :: _, [] => false
  end.

(** [s.endswith(p)] *)
Definition endswith (p s : str) : bool := startswith (rev p) (rev s).

(** [p in s] *)
Fixpoint contains (p s : str) : bool :=
  startswith p s ||
  match s with
  | [] => false
  | _ :: s' => contains p s'
  end.

(** [s.split(sep)] for a non-empty separator: the separators are found from
    the left and do not overlap.  [skip] counts the characters of a found
    separator that are still to be passed over; [cur] is the piece being
    read, in reverse. *)
Fixpoint split_go (sep s cur : str) (skip : nat) : list str :=
  match s with
  | [] => [rev cur]
  | c :: s' =>
      match skip with
      | S k => split_go sep s' cur k
      | O =>
          if startswith sep s
          then rev cur :: split_go sep s' [] (length sep - 1)
          else split_go sep s' (c :: cur) 0
      end
  end.

Definition split (sep s : str) : list str := split_go sep s [] 0.

(** [s.count(sub)] for a non-empty [sub]: occurrences that do not overlap. *)
Fixpoint count_go (sub s : str) (skip : nat) : nat :=
  match s with
  | [] => 0
  | _ :: s' =>
      match skip with
      | S k => count_go sub s' k
      | O =>
          if startswith sub s
          then S (count_go sub s' (length sub - 1))
          else count_go sub s' 0
      end
  end.

Definition count (sub s : str) : nat := count_go sub s 0.

(** [s.replace(old, new)] for a non-empty [old]. *)
Fixpoint replace_go (old new s : str) (skip : nat) : str :=
  match s with
  | [] => []
  | c :: s' =>
      match skip with
      | S k => replace_go old new s' k
      | O =>
          if startswith old s
          then new ++ replace_go old new s' (length old - 1)
          else c :: replace_go old new s' 0
      end
  end.

Definition replace (old new s : str) : str := replace_go old new s 0.

(** [sep.join(l)] *)
Fixpoint join (sep : str) (l : list str) : str :=
  match l with
  | [] => []
  | [x] => x
  | x :: l' => x ++ sep ++ join sep l'
  end.

(** [s.title()]: a cased character is title-cased when the character before
    it is not cased, and lower-cased otherwise. *)
Fixpoint title_go (s : str) (previous_is_cased : bool) : str :=
  match s with
  | [] => []
  | c :: s' =>
      (if previous_is_cased then cp_lower_full c else cp_title c)
        ++ title_go s' (cp_iscased c)
  end.

Definition title (s : str) : str := title_go s false.

(** ** Numbers *)

Definition digit_value (c : N) : Z := Z.of_N c - 48.

(** The value of a string of decimal digits. *)
Definition Z_of_digits (s : str) : Z :=
  fold_left (fun acc c => 10 * acc + digit_value c)%Z s 0%Z.

Fixpoint digits_go (fuel : nat) (n : Z) (acc : str) : str :=
  match fuel with
  | O => acc
  | S f =>
      let acc' := Z.to_N (48 + n mod 10) :: acc in
      if (n <? 10)%Z then acc' else digits_go f (n / 10)%Z acc'
  end.

(** [str(n)] for an integer [n >= 0]. *)
Definition str_of_Z (n : Z) : str := digits_go (S (Z.to_nat (Z.log2 n))) n [].

Definition str_of_nat (n : nat) : str := str_of_Z (Z.of_nat n).

(** ** Floating point

    [float(s)] and the product with a power of ten are computed on IEEE
    binary64 values, correctly rounded (to nearest, ties to even).  On the
    non-negative integers this is integer arithmetic. *)

(** The binary64 value nearest to the integer [n >= 0]; [None] is [inf]. *)
Definition binary64_of_Z (n : Z) : option Z :=
  if (n <? 2 ^ 53)%Z then Some n
  else
    let e := (Z.log2 n - 52)%Z in
    let m := Z.shiftr n e in
    let r := (n - Z.shiftl m e)%Z in
    let half := Z.shiftl 1 (e - 1) in
    let m' := if (half <? r)%Z || ((r =? half)%Z && Z.odd m)
              then (m + 1)%Z else m in
    let v := Z.shiftl m' e in
    if (v <? 2 ^ 1024)%Z then Some v else None.

(** [float(s)] where [s] holds digits and white space only: white space
    around the digits is dropped; anything else than a non-empty run of
    digits is a [ValueError] ([inl tt]).  [inr None] is [inf]. *)
Definition float (s : str) : unit + option Z :=
  let t := strip s in
  match t with
  | [] => inl tt
  | _ => if forallb cp_isdigit t then inr (binary64_of_Z (Z_of_digits t))
         else inl tt
  end.

(** [int(float(s) * k)] for an integer [k > 0]; [None] when [float] or [int]
    raises ([int(inf)] is an [OverflowError]). *)
Definition int_float_times (s : str) (k : Z) : option Z :=
  match float s with
  | inl _ => None
  | inr None => None
  | inr (Some x) => binary64_of_Z (x * k)
  end.

End Py.

(* ================================================================== *)
(** * Regular expressions, as [re.search] with [re.IGNORECASE] runs them *)
(* ================================================================== *)

Module Re.
Import Py.

(** An item of a character set [[...]]. *)
Inductive item : Type :=
| IChar (c : N)      (* a literal character *)
| IDigit             (* \d *)
| ISpace.            (* \s *)

(** The patterns of the followers table use literals, sets, sequence,
    alternation, the greedy [?], [*] and [+], and one capture group. *)
Inductive re : Type :=
| Chr (c : N)
| In (items : list item)
| Cat (r1 r2 : re)
| Alt (r1 r2 : re)
| Opt (r : re)
| Star (r : re)
| Group (r : re).

Definition Plus (r : re) : re := Cat r (Star r).

(** Lower-case characters that share their upper case with [lo]: under
    IGNORECASE a literal [lo] matches them too. *)
Definition ignorecase_fixes (lo : N) : list N :=
  if (lo =? 105)%N then [305]%N              (* i: dotless i *)
  else if (lo =? 115)%N then [383]%N         (* s: long s *)
  else if (lo =? 181)%N then [956]%N         (* micro sign: mu *)
  else if (lo =? 1074)%N then [7296]%N       (* Cyrillic ve *)
  else if (lo =? 1076)%N then [7297]%N       (* Cyrillic de *)
  else if (lo =? 1086)%N then [7298]%N       (* Cyrillic o *)
  else if (lo =? 1089)%N then [7299]%N       (* Cyrillic es *)
  else if (lo =? 1090)%N then [7300; 7301]%N (* Cyrillic te *)
  else if (lo =? 1098)%N then [7302]%N       (* Cyrillic hard sign *)
  else [].

(** A literal [p] of the pattern against a character [c] of the text,
    ignoring case: the lower case of [c] is that of [p] or one of its
    fixes. *)
Definition chr_matches (p c : N) : bool :=
  let lo := cp_lower p in
  existsb (N.eqb (cp_lower c)) (lo :: ignorecase_fixes lo).

Definition item_matches (i : item) (c : N) : bool :=
  match i with
  | IChar p => chr_matches p c
  | IDigit => cp_isdigit c
  | ISpace => cp_isspace c
  end.

Section Matcher.

(** The answer of a successful match. *)
Variable A : Type.

(** [run r s g k] matches [r] at the head of [s], trying the alternatives
    in the order of a backtracking matcher (a greedy operator takes the
    longer match first), and hands the rest of the text and the capture to
    the continuation [k]; the first alternative [k] accepts wins.  [g] is
    the text captured by group 1 so far. *)
Fixpoint run (r : re) (s : str) (g : option str)
         (k : str -> option str -> option A) {struct r} : option A :=
  match r with
  | Chr p =>
      match s with
      | c :: s' => if chr_matches p c then k s' g else None
      | [] => None
      end
  | In items =>
      match s with
      | c :: s' =>
          if existsb (fun i => item_matches i c) items then k s' g else None
      | [] => None
      end
  | Cat r1 r2 => run r1 s g (fun s' g' => run r2 s' g' k)
  | Alt r1 r2 =>
      match run r1 s g k with
      | Some a => Some a
      | None => run r2 s g k
      end
  | Opt r1 =>
      match run r1 s g k with
      | Some a => Some a
      | None => k s g
      end
  | Star r1 =>
      (fix loop (n : nat) (s : str) (g : option str) {struct n} : option A :=
         match n with
         | O => k s g
         | S n' =>
             match run r1 s g
                     (fun s' g' =>
                        if length s' <? length s then loop n' s' g'
                        else None) with
             | Some a => Some a
             | None => k s g
             end
         end) (length s) s g
  | Group r1 =>
      run r1 s g
        (fun s' _ => k s' (Some (firstn (length s - length s') s)))
  end.

End Matcher.

(** [re.search(r, text, re.IGNORECASE)]: the match at the leftmost position
    where there is one; the result is [match.group(1)]. *)
Fixpoint search (r : re) (text : str) : option (option str) :=
  match run r text None (fun _ g => Some g) with
  | Some g => Some g
  | None =>
      match text with
      | [] => None
      | _ :: text' => search r text'
      end
  end.

(** The characters of [s] in sequence; [s] is not empty. *)
Fixpoint word (s : str) : re :=
  match s with
  | [] => Opt (In [])
  | [c] => Chr c
  | c :: s' => Cat (Chr c) (word s')
  end.

(** [r1 r2 ... rn] *)
Fixpoint seq (rs : list re) : re :=
  match rs with
  | [] => Opt (In [])
  | [r] => r
  | r :: rs' => Cat r (seq rs')
  end.

(** [r1|r2|...|rn] *)
Fixpoint alt (rs : list re) : re :=
  match rs with
  | [] => In []
  | [r] => r
  | r :: rs' => Alt r (alt rs')
  end.

End Re.

(* ================================================================== *)
(** * Values and records shared by the scripts *)
(* ================================================================== *)

(** The values the scripts put in their result dictionaries. *)
Inductive value : Type :=
| VNone
| VNaN                 (* the missing value of a table *)
| VStr (s : Py.str)
| VBool (b : bool).

Definition value_eq_dec : forall a b : value, {a = b} + {a <> b}.
Proof.
  decide equality; [apply Py.str_eq_dec | apply Bool.bool_dec].
Defined.

(** A Python [dict] with string keys, in insertion order. *)
Definition dict := list (string * value).

(** [d.get(key)]: [None] when the key is absent. *)
Fixpoint dict_get (key : string) (d : dict) : option value :=
  match d with
  | [] => None
  | (k, v) :: d' => if String.eqb k key then Some v else dict_get key d'
  end.

(** [key in d] *)
Definition has_key (key : string) (d : dict) : bool :=
  match dict_get key d with Some _ => true | None => false end.

(* ================================================================== *)
(** * Files of tables *)
(* ================================================================== *)

(** The scripts keep their tables in CSV files, through [pandas.read_csv]
    and [DataFrame.to_csv].  A file is modelled by the rows it holds. *)
Module Fs.
Import Py.

Section Files.

(** The type of a row. *)
Variable R : Type.

(** What a script asks of the file system.  [Replace] is the renaming of a
    file over another one; no script issues it. *)
Inductive event : Type :=
| ReadCsv (path : str)
| ToCsv (path : str) (frame : list R)
| Replace (src dst : str).

(** The files, by path. *)
Definition files := list (str * list R).

Fixpoint lookup (path : str) (fs : files) : option (list R) :=
  match fs with
  | [] => None
  | (p, rows) :: fs' => if str_eqb p path then Some rows else lookup path fs'
  end.

Fixpoint remove (path : str) (fs : files) : files :=
  match fs with
  | [] => []
  | (p, rows) :: fs' =>
      if str_eqb p path then remove path fs' else (p, rows) :: remove path fs'
  end.

Definition write (path : str) (rows : list R) (fs : files) : files :=
  (path, rows) :: remove path fs.

(** An event carried out to its end. *)
Definition run (fs : files) (e : event) : files :=
  match e with
  | ReadCsv _ => fs
  | ToCsv path frame => write path frame fs
  | Replace src dst =>
      match lookup src fs with
      | Some rows => write dst rows (remove src fs)
      | None => fs
      end
  end.

(** An event cut short.  [to_csv] opens its file for writing, which
    empties it, and writes the rows in order: cut after [k] rows, the file
    holds these [k] rows.  A renaming is not divisible: cut short, it has
    not happened. *)
Definition interrupted (fs : files) (e : event) (k : nat) : files :=
  match e with
  | ReadCsv _ => fs
  | ToCsv path frame => write path (firstn k frame) fs
  | Replace _ _ => fs
  end.

(** The files when the events [trace] are cut short in the event number
    [i], after [k] rows. *)
Definition interrupted_at (fs : files) (trace : list event) (i k : nat)
  : files :=
  match nth_error trace i with
  | Some e => interrupted (fold_left run (firstn i trace) fs) e k
  | None => fold_left run trace fs
  end.

(** The events that change the files. *)
Definition is_write (e : event) : bool :=
  match e with ReadCsv _ => false | _ => true end.

Definition writes (trace : list event) : list event := filter is_write trace.

(** Write-new-then-swap, in the words of the specification: the full
    table goes to a temporary file, which then replaces the store. *)
Definition write_new_then_swap (store : str) (trace : list event) : Prop :=
  exists tmp frame,
    tmp <> store /\ writes trace = [ToCsv tmp frame; Replace tmp store].

(** "Either the full updated store replaces the previous one, or the
    previous store remains completely intact": wherever the events are
    cut short, the store file is as before or as after. *)
Definition atomic (store : str) (fs : files) (trace : list event) : Prop :=
  forall i k,
    lookup store (interrupted_at fs trace i k) = lookup store fs
    \/ lookup store (interrupted_at fs trace i k)
       = lookup store (fold_left run trace fs).

End Files.

Arguments ReadCsv {R} path.
Arguments ToCsv {R} path frame.
Arguments Replace {R} src dst.

End Fs.

(* ================================================================== *)
(** * linkedin_scraper.py *)
(* ================================================================== *)

Module LinkedInScraper.
Import Py Re.

Definition chr (a : ascii) : N := N_of_ascii a.

(** ** extract_followers_count *)

(** [([\d\s,.]+(?:\.\d+)?[KMB]?)] *)
Definition number : re :=
  Group (seq [Plus (In [IDigit; ISpace; IChar (chr ","); IChar (chr ".")]);
              Opt (Cat (Chr (chr ".")) (Plus (In [IDigit])));
              Opt (In [IChar (chr "K"); IChar (chr "M"); IChar (chr "B")])]).

Definition spaces1 : re := Plus (In [ISpace]).   (* \s+ *)
Definition spaces0 : re := Star (In [ISpace]).   (* \s* *)

(** [\s*:?\s*] *)
Definition colon : re := seq [spaces0; Opt (Chr (chr ":")); spaces0].

(** A word of the pattern whose last letter is optional: [wor?]. *)
Definition word_opt (s : str) : re :=
  Cat (word (removelast s)) (Opt (Chr (last s 0%N))).

(** The Cyrillic words of the table, U+043E U+0442 U+0441 U+043B U+0435
    U+0436 U+0438 U+0432 U+0430 U+044E U+0449 U+0438 U+0445 and U+043F
    U+043E U+0434 U+043F U+0438 U+0441 U+0447 U+0438 U+043A. *)
Definition otslezhivayushchikh : str :=
  [1086; 1090; 1089; 1083; 1077; 1078; 1080; 1074; 1072; 1102; 1097; 1080;
   1093]%N.
Definition podpischik : str :=
  [1087; 1086; 1076; 1087; 1080; 1089; 1095; 1080; 1082]%N.

(** "abonnes", its second-to-last letter being U+00E9. *)
Definition abonnes : str := lit "abonn" ++ [233%N] ++ lit "s".

Definition patterns : list re :=
  [ (* English *)
    seq [number; spaces1; word_opt (lit "followers")];
    seq [word_opt (lit "followers"); colon; number];
    (* Russian *)
    seq [number; spaces1; word otslezhivayushchikh];
    seq [number; spaces1; word podpischik];
    seq [word_opt otslezhivayushchikh; colon; number];
    (* German *)
    seq [number; spaces1; word (lit "Follower")];
    seq [word (lit "Follower"); colon; number];
    (* French *)
    seq [number; spaces1; word_opt abonnes];
    seq [word_opt abonnes; colon; number];
    (* Spanish *)
    seq [number; spaces1; word_opt (lit "seguidores")];
    seq [word_opt (lit "seguidores"); colon; number];
    (* Portuguese *)
    seq [number; spaces1; word_opt (lit "seguidores")];
    (* Italian *)
    seq [number; spaces1; word (lit "follower")];
    (* Dutch *)
    seq [number; spaces1; word_opt (lit "volgers")];
    seq [word_opt (lit "volgers"); colon; number];
    (* General patterns *)
    seq [number; spaces1;
         alt [word_opt (lit "followers"); word otslezhivayushchikh;
              word podpischik; word (lit "Follower"); word_opt abonnes;
              word_opt (lit "seguidores"); word_opt (lit "volgers")]]
  ].

(** What the body of the loop does with a match: [Some r] returns [r],
    [None] goes on with the next pattern. *)
Definition parse_count (group1 : str) : option str :=
  let count_str :=
    replace (lit ".") [] (replace (lit ",") [] (replace (lit " ") [] group1)) in
  if endswith (lit "K") count_str then
    option_map str_of_Z (int_float_times (removelast count_str) 1000)
  else if endswith (lit "M") count_str then
    option_map str_of_Z (int_float_times (removelast count_str) 1000000)
  else if endswith (lit "B") count_str then
    option_map str_of_Z (int_float_times (removelast count_str) 1000000000)
  else if isdigit count_str then Some count_str
  else None.

Fixpoint first_parse (ps : list re) (text : str) : option str :=
  match ps with
  | [] => None
  | pattern :: ps' =>
      match search pattern text with
      | Some (Some group1) =>
          match parse_count group1 with
          | Some r => Some r
          | None => first_parse ps' text
          end
      | _ => first_parse ps' text
      end
  end.

(** [extract_followers_count(text)]: the count as a string, or [None]. *)
Definition extract_followers_count (text : str) : option str :=
  first_parse patterns text.

(** ** check_yc_batch_indicator *)

Definition batch_indicators (batch_name : str) : list str :=
  if contains (lit "Spring 2025") batch_name then
    [lit "X25"; lit "Spring 2025"; lit "YC X25"; lit "YC Spring 2025";
     lit "Spring '25"]
  else if contains (lit "Summer 2025") batch_name then
    [lit "S25"; lit "Summer 2025"; lit "YC S25"; lit "YC Summer 2025";
     lit "Summer '25"]
  else if contains (lit "Winter 2025") batch_name then
    [lit "W25"; lit "Winter 2025"; lit "YC W25"; lit "YC Winter 2025";
     lit "Winter '25"]
  else [].

Definition check_yc_batch_indicator (text batch_name : str) : bool :=
  existsb (fun indicator => contains (lower indicator) (lower text))
          (batch_indicators batch_name).

(** ** scrape_linkedin_company *)

(** The [linkedin_url] argument: a cell of the input table, which is
    [None], NaN (an empty cell) or a string. *)
Inductive url_arg : Type :=
| UNone
| UNaN
| UStr (s : str).

(** What one attempt meets: [setup_driver] fails; the [try] block raises
    (while loading the page or reading it); or the page text is read.
    Quitting the driver in the [finally] block is taken not to raise. *)
Inductive attempt_outcome : Type :=
| SetupFailed
| Raised (message : str)
| Loaded (page_text : str).

(** What is asked of the browser. *)
Inductive event : Type :=
| SetupDriver
| Get (url : str)
| Quit.

Definition result (url : str) (followers : value) (indicator : bool)
           (error : value) : dict :=
  [("linkedin_url"%string, VStr url);
   ("followers_count"%string, followers);
   ("has_yc_batch_indicator"%string, VBool indicator);
   ("error"%string, error)].

(** The [try] block once the page text is read. *)
Definition page_result (linkedin_url batch_name page_text : str) : dict :=
  if contains (lit "Page not found") page_text
     || contains (lit "This page doesn't exist") page_text
  then result linkedin_url VNone false (VStr (lit "Page not found"))
  else
    let followers :=
      match extract_followers_count page_text with
      | Some ((_ :: _) as f) => VStr f
      | _ => VNone
      end in
    result linkedin_url followers
           (check_yc_batch_indicator page_text batch_name) VNone.

(** The loop [for attempt in range(max_retries)], from [attempt] on, with
    [remaining] iterations to go; [world attempt] is what the attempt
    meets. *)
Fixpoint attempts (world : nat -> attempt_outcome)
         (linkedin_url batch_name : str) (max_retries attempt remaining : nat)
         (log : list event) : dict * list event :=
  match remaining with
  | O =>
      (result linkedin_url VNone false (VStr (lit "All attempts failed")), log)
  | S remaining' =>
      match world attempt with
      | SetupFailed =>
          attempts world linkedin_url batch_name max_retries (S attempt)
                   remaining' (log ++ [SetupDriver])
      | Loaded page_text =>
          (page_result linkedin_url batch_name page_text,
           log ++ [SetupDriver; Get linkedin_url; Quit])
      | Raised e =>
          if attempt =? max_retries - 1
          then (result linkedin_url VNone false (VStr (firstn 100 e)),
                log ++ [SetupDriver; Get linkedin_url; Quit])
          else attempts world linkedin_url batch_name max_retries (S attempt)
                        remaining' (log ++ [SetupDriver; Get linkedin_url; Quit])
      end
  end.

Definition scrape_linkedin_company (world : nat -> attempt_outcome)
           (linkedin_url : url_arg) (batch_name : str) (max_retries : nat)
  : dict * list event :=
  match linkedin_url with
  | UNone | UNaN | UStr [] =>
      (result [] VNone false (VStr (lit "No LinkedIn URL provided")), [])
  | UStr url =>
      let url := if startswith (lit "http") url then url
                 else lit "https://" ++ url in
      attempts world url batch_name max_retries 0 max_retries []
  end.

End LinkedInScraper.

(* ================================================================== *)
(** * linkedin_yc_search.py *)
(* ================================================================== *)

Module LinkedInMultiPageSearch.
Import Py.

(** A found company: the dictionary [{'title': ..., 'linkedin_url': ...}];
    [linkedin_url] is [None] when the key is absent. *)
Record company : Type := Company {
  title : str;
  linkedin_url : option str
}.

Definition company_eq_dec : forall a b : company, {a = b} + {a <> b}.
Proof.
  decide equality;
    [decide equality; apply str_eq_dec | apply str_eq_dec].
Defined.

(** ** search_page: the scrolling loop *)

Definition marker : str := lit "(YC S25)".

(** How the scrolling loop ends: by its [break], in the round [round]
    (counted from 1, as the script prints it), or by running out of
    rounds. *)
Inductive scroll_state : Type :=
| Converged (round : nat)
| Exhausted.

Section SearchPage.

(** The text of the page body each time the script reads it: read 0 before
    the loop, one read at the end of each round, one read after the
    loop. *)
Variable body : nat -> str.

(** The rounds [for scroll_round in range(20)] from [scroll_round] on,
    [remaining] of them; [refreshes] lists the rounds that reloaded the
    page, counted from 0 as [scroll_round] is.  The result is the state, the number of rounds run and the
    reloads. *)
Fixpoint scroll (initial_count scroll_round remaining : nat)
         (refreshes : list nat) : scroll_state * nat * list nat :=
  match remaining with
  | O => (Exhausted, scroll_round, refreshes)
  | S remaining' =>
      let current_count := count marker (body (S scroll_round)) in
      if 10 <=? current_count
      then (Converged (S scroll_round), S scroll_round, refreshes)
      else if (5 <? scroll_round) && (current_count =? initial_count)
      then scroll initial_count (S scroll_round) remaining'
                  (refreshes ++ [scroll_round])
      else scroll initial_count (S scroll_round) remaining' refreshes
  end.

Definition scrolling : scroll_state * nat * list nat :=
  scroll (count marker (body 0)) 0 20 [].

(** The extraction of the company names from a page text, and the links
    of the page by their text: [extract_companies_from_text] and
    [get_linkedin_url_from_current_page]. *)
Variable extract_companies_from_text : str -> list str.
Variable linkedin_urls : list (str * str).

(** The first link whose text contains the name or is contained in it. *)
Fixpoint match_url (company_name : str) (urls : list (str * str)) : str :=
  match urls with
  | [] => []
  | (link_text, url) :: urls' =>
      if contains (lower company_name) (lower link_text)
         || contains (lower link_text) (lower company_name)
      then url
      else match_url company_name urls'
  end.

(** [search_page]: the state of the scrolling and the companies returned,
    which are those of the page text read after the loop.  Between the loop
    and this read the script scrolls to the bottom 15 more times and clicks
    the "Show more" buttons, in either state and without reading the
    page. *)
Definition search_page : scroll_state * list company :=
  let '(state, rounds, _) := scrolling in
  let page_text := body (S rounds) in
  (state,
   map (fun company_name =>
          Company company_name (Some (match_url company_name linkedin_urls)))
       (extract_companies_from_text page_text)).

End SearchPage.

(** ** save_results *)

(** A row of [data.csv]: the two identity columns, each a string or NaN
    ([None], an empty cell), and the other columns. *)
Record row : Type := Row {
  Title : option str;
  Linkedin_Link : option str;
  other_columns : dict
}.

Definition data_csv : str := lit "data.csv".

(** The sets [existing_companies] and [existing_links] of the rows read. *)
Fixpoint existing_companies (df : list row) : list str :=
  match df with
  | [] => []
  | r :: df' =>
      match Title r with
      | Some t => lower (strip t) :: existing_companies df'
      | None => existing_companies df'
      end
  end.

Fixpoint existing_links (df : list row) : list str :=
  match df with
  | [] => []
  | r :: df' =>
      match Linkedin_Link r with
      | Some l =>
          match strip l with
          | [] => existing_links df'
          | _ :: _ => lower (strip l) :: existing_links df'
          end
      | None => existing_links df'
      end
  end.

Definition title_lower (c : company) : str := lower (strip (title c)).

(** [company.get('linkedin_url', '').strip().lower()] *)
Definition link_lower (c : company) : str :=
  lower (strip (match linkedin_url c with Some l => l | None => [] end)).

Definition is_duplicate_title (df : list row) (c : company) : bool :=
  mem (title_lower c) (existing_companies df).

(** [link_lower and link_lower in existing_links] *)
Definition is_duplicate_link (df : list row) (c : company) : bool :=
  match link_lower c with
  | [] => false
  | _ :: _ => mem (link_lower c) (existing_links df)
  end.

(** The loop that filters the duplicates: the two sets are those of the
    rows read, and stay as they are while the companies are gone through. *)
Definition new_companies (df : list row) (companies : list company)
  : list company :=
  filter (fun c => negb (is_duplicate_title df c)
                   && negb (is_duplicate_link df c)) companies.

(** The row written for a new company. *)
Definition new_row (c : company) : row :=
  Row (Some (title c))
      (Some (match linkedin_url c with Some l => l | None => [] end))
      [("Batch"%string, VStr (lit "Summer 2025"));
       ("Short Description"%string, VStr []);
       ("Tags"%string, VStr []);
       ("Founded"%string, VStr []);
       ("Team Size"%string, VStr []);
       ("Location"%string, VStr []);
       ("Jobs"%string, VStr []);
       ("Company Link"%string, VStr []);
       ("Followers_Count"%string, VStr []);
       ("Has_YC_Batch_Indicator"%string, VBool true);
       ("Long Description"%string, VStr []);
       ("YC Page"%string, VStr [])].

(** The rows of [data.csv] as [save_results] reads them: a missing file
    reads as the empty frame. *)
Definition rows_read (fs : Fs.files row) : list row :=
  match Fs.lookup data_csv fs with
  | Some rows => rows
  | None => []
  end.

(** [save_results(companies)] on the files [fs]: what is asked of the file
    system, and the value returned ([None], or the number of companies
    added). *)
Definition save_results (fs : Fs.files row) (companies : list company)
  : list (Fs.event row) * option nat :=
  match companies with
  | [] => ([], None)
  | _ :: _ =>
      let df := rows_read fs in
      let new := new_companies df companies in
      match new with
      | [] => ([Fs.ReadCsv data_csv], None)
      | _ :: _ =>
          ([Fs.ReadCsv data_csv; Fs.ToCsv data_csv (df ++ map new_row new)],
           Some (length new))
      end
  end.

(** The table [save_results] writes when there is a new company. *)
Definition updated (fs : Fs.files row) (companies : list company)
  : list row :=
  rows_read fs ++ map new_row (new_companies (rows_read fs) companies).

(** The files after [save_results]. *)
Definition files_after (fs : Fs.files row) (companies : list company)
  : Fs.files row :=
  fold_left (@Fs.run row) (fst (save_results fs companies)) fs.

End LinkedInMultiPageSearch.

(* ================================================================== *)
(** * yc_scraper.py *)
(* ================================================================== *)

Module YCScraperUniversal.
Import Py.

(** ** The tags of a company page *)

Definition excluded_lines : list str :=
  [lit "SPRING 2025"; lit "WINTER 2025"; lit "SUMMER 2025"; lit "ACTIVE";
   lit "INACTIVE"].

Definition cities : list str :=
  [lit "NEW YORK"; lit "SAN FRANCISCO"; lit "LOS ANGELES"; lit "CHICAGO";
   lit "BOSTON"; lit "SEATTLE"].

(** The test a trimmed line passes to be a tag. *)
Definition is_tag (line : str) : bool :=
  isupper line && (1 <? length line) && (length line <? 30)
  && negb (mem line excluded_lines)
  && negb (existsb (fun city => contains city line) cities).

(** The list [tags] built from the text of the main container. *)
Fixpoint tags_of_lines (lines : list str) : list str :=
  match lines with
  | [] => []
  | line :: lines' =>
      let line := strip line in
      if is_tag line then line :: tags_of_lines lines'
      else tags_of_lines lines'
  end.

Definition extract_tags (container_text : str) : list str :=
  tags_of_lines (split [10%N] container_text).

(** [data['tags']] *)
Definition tags_field (container_text : str) : str :=
  join (lit ", ") (extract_tags container_text).

(** ** extract_company_details_with_retry *)

(** The fields read from a company page. *)
Record page_fields : Type := PageFields {
  title : str;
  short_description : str;
  tags : str;
  founded : str;
  team_size : str;
  location : str;
  jobs : str;
  company_link : str;
  linkedin_link : str;
  primary_partner : str;
  long_description : str
}.

(** What one attempt meets: [setup_driver] fails; the page is judged
    incomplete; the [try] block raises; or the fields are read. *)
Inductive attempt_outcome : Type :=
| SetupFailed
| PageIncomplete
| Raised
| Extracted (data : page_fields).

Definition nonempty (s : str) : bool :=
  match s with [] => false | _ :: _ => true end.

(** The loop [for attempt in range(max_retries)]: the data of the first
    attempt that read a title and a description or a link; [None] when no
    attempt did. *)
Fixpoint extract_company_details_with_retry
         (world : nat -> attempt_outcome) (attempt remaining : nat)
  : option page_fields :=
  match remaining with
  | O => None
  | S remaining' =>
      match world attempt with
      | Extracted data =>
          if nonempty (title data)
             && (nonempty (short_description data)
                 || nonempty (company_link data))
          then Some data
          else extract_company_details_with_retry world (S attempt) remaining'
      | _ => extract_company_details_with_retry world (S attempt) remaining'
      end
  end.

Definition max_retries : nat := 3.

(** The details of the company number [i] of the batch. *)
Definition details_of (world : nat -> nat -> attempt_outcome) (i : nat)
  : option page_fields :=
  extract_company_details_with_retry (world i) 0 max_retries.

(** ** scrape_batch *)

(** The record of a company whose page was read. *)
Definition extracted_record (batch_name url : str) (details : page_fields)
  : dict :=
  [("Batch"%string, VStr batch_name);
   ("Title"%string, VStr (title details));
   ("Short Description"%string, VStr (short_description details));
   ("Tags"%string, VStr (tags details));
   ("Founded"%string, VStr (founded details));
   ("Team Size"%string, VStr (team_size details));
   ("Location"%string, VStr (location details));
   ("Jobs"%string, VStr (jobs details));
   ("Company Link"%string, VStr (company_link details));
   ("Linkedin Link"%string, VStr (linkedin_link details));
   ("Primary Partner"%string, VStr (primary_partner details));
   ("Long Description"%string, VStr (long_description details));
   ("YC Page"%string, VStr url)].

(** [url.split('/companies/')[-1]] *)
Definition company_name (url : str) : str :=
  last (split (lit "/companies/") url) [].

(** The record of a company no attempt could read. *)
Definition failed_record (batch_name url : str) : dict :=
  [("Batch"%string, VStr batch_name);
   ("Title"%string,
    VStr (Py.title (replace (lit "-") (lit " ") (company_name url))));
   ("Short Description"%string, VStr []);
   ("Tags"%string, VStr []);
   ("Founded"%string, VStr []);
   ("Team Size"%string, VStr []);
   ("Location"%string, VStr []);
   ("Jobs"%string, VStr []);
   ("Company Link"%string, VStr []);
   ("Linkedin Link"%string, VStr []);
   ("Primary Partner"%string, VStr []);
   ("Long Description"%string, VStr []);
   ("YC Page"%string, VStr url)].

Definition record_of (batch_name url : str) (details : option page_fields)
  : dict :=
  match details with
  | Some d => extracted_record batch_name url d
  | None => failed_record batch_name url
  end.

(** [batch_name.lower().replace(' ', '_')] *)
Definition batch_safe (batch_name : str) : str :=
  replace (lit " ") (lit "_") (lower batch_name).

Definition partial_file (batch_name : str) (n : nat) : str :=
  lit "yc_" ++ batch_safe batch_name ++ lit "_partial_" ++ str_of_nat n
      ++ lit ".csv".

(** The loop over the URLs from the index [i] on: [world j] is what the
    attempts on the company number [j] meet; [companies] are the records so
    far and [log] the partial files written. *)
Fixpoint scrape_loop (batch_name : str)
         (world : nat -> nat -> attempt_outcome) (urls : list str) (i : nat)
         (companies : list dict) (log : list (Fs.event dict))
  : list dict * list (Fs.event dict) :=
  match urls with
  | [] => (companies, log)
  | url :: urls' =>
      let details := details_of world i in
      let companies := companies ++ [record_of batch_name url details] in
      let log :=
        if (S i) mod 20 =? 0
        then log ++ [Fs.ToCsv (partial_file batch_name (S i)) companies]
        else log in
      scrape_loop batch_name world urls' (S i) companies log
  end.

(** [scrape_batch()], given the URLs [get_all_company_urls] found. *)
Definition scrape_batch (batch_name : str)
           (world : nat -> nat -> attempt_outcome) (company_urls : list str)
  : list dict * list (Fs.event dict) :=
  scrape_loop batch_name world company_urls 0 [] [].

(** ** save_to_csv *)

Definition required_columns : list string :=
  ["Batch"; "Title"; "Short Description"; "Tags"; "Founded"; "Team Size";
   "Location"; "Jobs"; "Company Link"; "Linkedin Link"; "Primary Partner";
   "Long Description"; "YC Page"]%string.

(** [col in df.columns] for the frame made of the records. *)
Definition in_columns (col : string) (companies : list dict) : bool :=
  existsb (has_key col) companies.

(** The cell of a record in a required column: a column no record has is
    filled with the empty string; a key one record lacks and another has is
    NaN in the frame. *)
Definition cell (companies : list dict) (r : dict) (col : string) : value :=
  match dict_get col r with
  | Some v => v
  | None => if in_columns col companies then VNaN else VStr []
  end.

(** [df[required_columns]] *)
Definition select_required (companies : list dict) : list dict :=
  map (fun r => map (fun col => (col, cell companies r col)) required_columns)
      companies.

Definition cell_eq_dec : forall a b : option value, {a = b} + {a <> b}.
Proof. decide equality; apply value_eq_dec. Defined.

(** [df.drop_duplicates(subset=['Title'], keep='first')]; [seen] holds the
    titles of the rows before. *)
Fixpoint drop_duplicates (seen : list (option value)) (df : list dict)
  : list dict :=
  match df with
  | [] => []
  | r :: df' =>
      let t := dict_get "Title" r in
      if in_dec cell_eq_dec t seen
      then drop_duplicates seen df'
      else r :: drop_duplicates (t :: seen) df'
  end.

Definition default_file (batch_name : str) : str :=
  lit "yc_" ++ batch_safe batch_name ++ lit "_companies.csv".

(** [save_to_csv(companies, filename)]: what is asked of the file system and
    the file name returned. *)
Definition save_to_csv (batch_name : str) (companies : list dict)
           (filename : option str) : list (Fs.event dict) * option str :=
  match companies with
  | [] => ([], None)
  | _ :: _ =>
      let filename := match filename with
                      | Some f => f
                      | None => default_file batch_name
                      end in
      let df := drop_duplicates [] (select_required companies) in
      ([Fs.ToCsv filename df], Some filename)
  end.

End YCScraperUniversal.

(* ================================================================== *)
(** * The specification's own words *)
(* ================================================================== *)

(** The notions the specification states its properties with, written from
    its sentences; the theorems compare the code above with them. *)
Module Spec.
Import Py.

(** "normalize(s) = lowercase(trim(s))" *)
Definition normalize (s : str) : str := lower (strip s).

Section Store.

(** A store of records of type [R], each with a title and a link, either
    of which may be missing. *)
Variable R : Type.
Variable title_of : R -> option str.
Variable link_of : R -> option str.

(** The normalized titles present in the store. *)
Definition existing_title (store : list R) (t : str) : Prop :=
  exists r s, In r store /\ title_of r = Some s /\ t = normalize s.

(** The normalized non-empty links present in the store. *)
Definition existing_link (store : list R) (l : str) : Prop :=
  exists r s,
    In r store /\ link_of r = Some s /\ l = normalize s /\ l <> [].

(** "A candidate is a duplicate if normalize(candidate.title) is already
    present among existing titles, or candidate.link is non-empty and
    normalize(candidate.link) is already present among existing links". *)
Definition duplicate (store : list R) (title link : str) : Prop :=
  existing_title store (normalize title)
  \/ (link <> [] /\ existing_link store (normalize link)).

(** "No two records share a normalized title or a normalized non-empty
    link". *)
Definition share_title (r1 r2 : R) : Prop :=
  exists t1 t2,
    title_of r1 = Some t1 /\ title_of r2 = Some t2
    /\ normalize t1 = normalize t2.

Definition share_link (r1 r2 : R) : Prop :=
  exists l1 l2,
    link_of r1 = Some l1 /\ link_of r2 = Some l2
    /\ normalize l1 = normalize l2 /\ normalize l1 <> [].

Definition unique (store : list R) : Prop :=
  forall i j r1 r2,
    i <> j -> nth_error store i = Some r1 -> nth_error store j = Some r2 ->
    ~ share_title r1 r2 /\ ~ share_link r1 r2.

End Store.

(** The title and the link of a record of the batch scraper. *)
Definition record_title (r : dict) : option str :=
  match dict_get "Title" r with Some (VStr s) => Some s | _ => None end.

Definition record_link (r : dict) : option str :=
  match dict_get "Linkedin Link" r with Some (VStr s) => Some s | _ => None end.

(** "A line qualifies as a tag iff it is entirely upper-case, its length
    lies in [2,30), it is not a member of a fixed exclusion vocabulary, and
    it does not match any entry in a fixed list of known location names". *)
Definition qualifies_as_tag (line : str) : Prop :=
  isupper line = true
  /\ 2 <= length line < 30
  /\ ~ In line YCScraperUniversal.excluded_lines
  /\ (forall city, In city YCScraperUniversal.cities ->
                   contains city line = false).

(** The candidate's link: [''] when the record has none. *)
Definition candidate_link (c : LinkedInMultiPageSearch.company) : str :=
  match LinkedInMultiPageSearch.linkedin_url c with
  | Some l => l
  | None => []
  end.

(** The page that makes an attempt of the LinkedIn scraper a success: it
    does not say that the page is missing. *)
Definition page_found (page_text : str) : Prop :=
  contains (lit "Page not found") page_text = false
  /\ contains (lit "This page doesn't exist") page_text = false.

(** An attempt within the budget reads a page that is found, the attempts
    before it having read none. *)
Definition some_attempt_succeeds
           (world : nat -> LinkedInScraper.attempt_outcome)
           (max_retries : nat) : Prop :=
  exists k page_text,
    k < max_retries
    /\ world k = LinkedInScraper.Loaded page_text
    /\ page_found page_text
    /\ forall j, j < k -> forall t, world j <> LinkedInScraper.Loaded t.

End Spec.

(* ================================================================== *)
(** * linkedin_scraper.py: the batch over a table *)
(* ================================================================== *)

Module LinkedInScraperBatch.
Import Py LinkedInScraper.

(** A row of the table read: the columns the script uses.  [Linkedin_Link]
    is [None] for an empty cell. *)
Record input_row : Type := InputRow {
  Batch : str;
  Title : value;
  Linkedin_Link : option str
}.

(** What [pd.read_csv(csv_file)] and the test of the columns meet. *)
Inductive input : Type :=
| FileNotFound
| NoLinkColumn
| Table (rows : list input_row).

(** A row of the results. *)
Record result_row : Type := ResultRow {
  Original_Index : nat;
  Result_Batch : str;
  Result_Title : value;
  LinkedIn_URL : value;
  Followers_Count : value;
  Has_YC_Batch_Indicator : value;
  Error : value
}.

(** [d[key]] for a key the dictionary has. *)
Definition item (key : string) (d : dict) : value :=
  match dict_get key d with
  | Some v => v
  | None => VNone
  end.

(** [df[df['Linkedin Link'].notna() & (df['Linkedin Link'] != '')]]: the
    rows with a link, each with its index in the table read. *)
Definition has_link (company : nat * input_row) : bool :=
  match Linkedin_Link (snd company) with
  | Some (_ :: _) => true
  | _ => false
  end.

Definition linkedin_companies (rows : list input_row)
  : list (nat * input_row) :=
  filter has_link (combine (seq 0 (length rows)) rows).

Definition link_of (company : input_row) : url_arg :=
  match Linkedin_Link company with
  | Some l => UStr l
  | None => UNaN
  end.

Definition max_retries : nat := 2.

Definition partial_file (n : nat) : str :=
  lit "linkedin_data_partial_" ++ str_of_nat n ++ lit ".csv".

Definition output_file : str := lit "linkedin_company_data.csv".

(** The row made of a company and of what was scraped for it. *)
Definition result_of (idx : nat) (company : input_row) (linkedin_data : dict)
  : result_row :=
  ResultRow idx (Batch company) (Title company)
            (item "linkedin_url" linkedin_data)
            (item "followers_count" linkedin_data)
            (item "has_yc_batch_indicator" linkedin_data)
            (item "error" linkedin_data).

(** The loop over the companies from the position [i] on: [world j] is what
    the attempts on the company at the position [j] meet; [results] are the
    rows so far, [files] the partial files written and [browser] what was
    asked of the browser. *)
Fixpoint scrape_loop (world : nat -> nat -> attempt_outcome)
         (companies : list (nat * input_row)) (i : nat)
         (results : list result_row) (files : list (Fs.event result_row))
         (browser : list event)
  : list result_row * list (Fs.event result_row) * list event :=
  match companies with
  | [] => (results, files, browser)
  | (idx, company) :: companies' =>
      let scraped :=
        scrape_linkedin_company (world i) (link_of company) (Batch company)
                                max_retries in
      let results := results ++ [result_of idx company (fst scraped)] in
      let files :=
        if (S i) mod 10 =? 0
        then files ++ [Fs.ToCsv (partial_file (S i)) results]
        else files in
      scrape_loop world companies' (S i) results files (browser ++ snd scraped)
  end.

(** [scrape_companies_linkedin(csv_file)]: the table returned ([None] when
    the file or the column is missing, or no company has a link), the files
    written and what was asked of the browser. *)
Definition scrape_companies_linkedin
           (world : nat -> nat -> attempt_outcome) (csv : input)
  : option (list result_row) * list (Fs.event result_row) * list event :=
  match csv with
  | FileNotFound => (None, [], [])
  | NoLinkColumn => (None, [], [])
  | Table rows =>
      match linkedin_companies rows with
      | [] => (None, [], [])
      | (_ :: _) as companies =>
          let '(results, files, browser) :=
            scrape_loop world companies 0 [] [] [] in
          (Some results, files ++ [Fs.ToCsv output_file results], browser)
      end
  end.

End LinkedInScraperBatch.

(* ================================================================== *)
(** * linkedin_yc_search.py: the links of a page and the whole search *)
(* ================================================================== *)

Module LinkedInMultiPageSearchRun.
Import Py LinkedInMultiPageSearch.

(** [company_urls[link_text] = href] on a dictionary kept in insertion
    order: the value of a key already there is replaced in place. *)
Fixpoint set_item (key v : str) (d : list (str * str)) : list (str * str) :=
  match d with
  | [] => [(key, v)]
  | (k, v') :: d' =>
      if str_eqb k key then (k, v) :: d' else (k, v') :: set_item key v d'
  end.

(** A link of the page: its [href] attribute, which may be missing, and its
    text. *)
Definition link : Type := (option str * str)%type.

Definition keep_link (l : link) : bool :=
  match fst l with
  | Some ((_ :: _) as href) =>
      contains (lit "/company/") href && contains (lit "linkedin.com") href
  | _ => false
  end.

(** [get_linkedin_url_from_current_page()], given the links found. *)
Fixpoint company_urls (links : list link) (urls : list (str * str))
  : list (str * str) :=
  match links with
  | [] => urls
  | l :: links' =>
      if keep_link l
      then match strip (snd l), fst l with
           | (_ :: _) as link_text, Some href =>
               company_urls links' (set_item link_text href urls)
           | _, _ => company_urls links' urls
           end
      else company_urls links' urls
  end.

Definition get_linkedin_url_from_current_page (links : list link)
  : list (str * str) :=
  company_urls links [].

(** [search_all_pages()]: [pages p] is what [search_page(p)] returns, the
    empty list when the page failed.  The result is the companies returned
    and what is asked of the file system. *)
Definition search_all_pages (driver_ok login_ok : bool)
           (pages : nat -> list company) (fs : Fs.files row)
  : list company * list (Fs.event row) :=
  if driver_ok && login_ok then
    let companies := flat_map pages (seq 1 10) in
    match companies with
    | [] => ([], [])
    | _ :: _ => (companies, fst (save_results fs companies))
    end
  else ([], []).

(** [main()]: the search, and [save_results] once more on what it returned.
    The result is what is asked of the file system by the two. *)
Definition main (driver_ok login_ok : bool) (pages : nat -> list company)
           (fs : Fs.files row) : list (Fs.event row) :=
  let '(companies, trace) := search_all_pages driver_ok login_ok pages fs in
  match companies with
  | [] => trace
  | _ :: _ =>
      trace ++ fst (save_results (fold_left (@Fs.run row) trace fs) companies)
  end.

End LinkedInMultiPageSearchRun.

(* ================================================================== *)
(** * yc_scraper.py: the list of companies, two fields and the whole run *)
(* ================================================================== *)

Module YCScraperUniversalRun.
Import Py YCScraperUniversal.

(** ** get_all_company_urls *)

Definition max_scrolls : nat := 50.

(** The loop [while scroll_attempts < max_scrolls]: [links n] are the
    [href] attributes of the company links found at the [n]-th look at the
    page (counted from 0), each look following a scroll to the bottom.  The
    result is the number of looks made. *)
Fixpoint scroll (links : nat -> list (option str))
         (last_count scroll_attempts remaining : nat) : nat :=
  match remaining with
  | O => scroll_attempts
  | S remaining' =>
      let current_count := length (links scroll_attempts) in
      if current_count =? last_count then S scroll_attempts
      else scroll links current_count (S scroll_attempts) remaining'
  end.

Definition keep_href (href : option str) : bool :=
  match href with
  | Some ((_ :: _) as h) =>
      contains (lit "/companies/") h && negb (contains (lit "founders") h)
  | _ => false
  end.

Definition href_text (href : option str) : str :=
  match href with Some h => h | None => [] end.

(** [get_all_company_urls()]: [driver_ok] tells whether the driver could be
    set up, [filter_found] whether the page shows the filter of the batch. *)
Definition get_all_company_urls (driver_ok filter_found : bool)
           (links : nat -> list (option str)) : list str :=
  if driver_ok && filter_found then
    let looks := scroll links 0 0 max_scrolls in
    map href_text (filter keep_href (links looks))
  else [].

(** ** The year and the team size *)

(** [(\d{4})] and [(\d+)] *)
Definition four_digits : Re.re :=
  Re.Group (Re.seq [Re.In [Re.IDigit]; Re.In [Re.IDigit];
                    Re.In [Re.IDigit]; Re.In [Re.IDigit]]).

Definition digits : Re.re := Re.Group (Re.Plus (Re.In [Re.IDigit])).

Definition group1_or_empty (r : Re.re) (text : str) : str :=
  match Re.search r text with
  | Some (Some g) => g
  | _ => []
  end.

(** [data['founded']], from the text of the element that holds the label
    'Founded:'. *)
Definition founded_of (founded_text : str) : str :=
  group1_or_empty four_digits founded_text.

(** [data['team_size']], from the text of the element that holds the label
    'Team Size:'. *)
Definition team_size_of (team_text : str) : str :=
  group1_or_empty digits team_text.

(** ** main *)

(** [main()]: the URLs are scraped and, when there is a record, saved.  The
    result is the files written. *)
Definition main (batch_name : str) (driver_ok filter_found : bool)
           (links : nat -> list (option str))
           (world : nat -> nat -> attempt_outcome) (output : option str)
  : list (Fs.event dict) :=
  let company_urls := get_all_company_urls driver_ok filter_found links in
  let '(companies, partial_files) :=
    scrape_batch batch_name world company_urls in
  match companies with
  | [] => partial_files
  | _ :: _ => partial_files ++ fst (save_to_csv batch_name companies output)
  end.

End YCScraperUniversalRun.

(* ================================================================== *)
(** * streamlit_app.py: how the dashboard reads the table *)
(* ================================================================== *)

Module StreamlitApp.
Import Py.

(** [[tag.strip() for tag in tags.split(',') if tag.strip()]] *)
Definition tag_list (tags : str) : list str :=
  filter (fun tag => match tag with [] => false | _ :: _ => true end)
         (map strip (split (lit ",") tags)).

(** The rows of the page [page] (counted from 1): [total_pages] and the
    slice [iloc[start_idx:end_idx]]. *)
Definition total_pages (rows companies_per_page : nat) : nat :=
  (rows - 1) / companies_per_page + 1.

Definition page_df (A : Type) (filtered_df : list A)
           (companies_per_page page : nat) : list A :=
  if 1 <? total_pages (length filtered_df) companies_per_page then
    let start_idx := (page - 1) * companies_per_page in
    firstn companies_per_page (skipn start_idx filtered_df)
  else filtered_df.

End StreamlitApp.

(* ================================================================== *)
(** * The words of a regular expression *)
(* ================================================================== *)

(** The words a pattern matches, whatever the order in which a matcher
    tries them; the lemmas on [Re.run] are stated with them. *)
Module ReLang.
Import Py Re.




End ReLang.

(* ================================================================== *)
(** * Notions the further properties are stated with *)
(* ================================================================== *)

Module Notions.
Import Py Re ReLang.

(** A string that does not start with white space. *)
Definition starts_clean (s : str) : Prop :=
  match s with [] => True | c :: _ => cp_isspace c = false end.


(** ** linkedin_scraper.py *)


(** What one attempt asks of the browser: a driver, and when the driver is
    there, the page and the end of the driver. *)
Definition session (url : str) (fetched : bool)
  : list LinkedInScraper.event :=
  if fetched then 
    [LinkedInScraper.SetupDriver; LinkedInScraper.Get url;
     LinkedInScraper.Quit]
  else [LinkedInScraper.SetupDriver].

(** The results that carry an error carry nothing else. *)
Definition bare (d : dict) : Prop :=
  dict_get "followers_count" d = Some VNone
  /\ dict_get "has_yc_batch_indicator" d = Some (VBool false).

(** The result and the requests to the browser for the company at the
    position [j] among the companies with a link. *)
Definition scraped (world : nat -> nat -> LinkedInScraper.attempt_outcome)
           (j : nat) (company : nat * LinkedInScraperBatch.input_row)
  : dict * list LinkedInScraper.event :=
  LinkedInScraper.scrape_linkedin_company
    (world j) (LinkedInScraperBatch.link_of (snd company))
    (LinkedInScraperBatch.Batch (snd company))
    LinkedInScraperBatch.max_retries.

Definition scraped_row (world : nat -> nat -> LinkedInScraper.attempt_outcome)
           (j : nat) (company : nat * LinkedInScraperBatch.input_row)
  : LinkedInScraperBatch.result_row :=
  LinkedInScraperBatch.result_of
    (fst company) (snd company) (fst (scraped world j company)).

(** The index, the title and the batch of a row of the results and of a
    company of the table. *)
Definition identity_of_result (r : LinkedInScraperBatch.result_row)
  : nat * value * str :=
  (LinkedInScraperBatch.Original_Index r,
   LinkedInScraperBatch.Result_Title r,
   LinkedInScraperBatch.Result_Batch r).

Definition identity_of_company (c : nat * LinkedInScraperBatch.input_row)
  : nat * value * str :=
  (fst c, LinkedInScraperBatch.Title (snd c),
   LinkedInScraperBatch.Batch (snd c)).

End Notions.

(* ================================================================== *)
(** * More sample inputs *)
(* ================================================================== *)

Module MoreSamples.
Import Py.

(** A browser on which no driver can be set up. *)
Definition no_driver : nat -> nat -> LinkedInScraper.attempt_outcome :=
  fun _ _ => LinkedInScraper.SetupFailed.

(** A table of two companies, the first one without a link. *)
Definition two_rows : list LinkedInScraperBatch.input_row :=
  [LinkedInScraperBatch.InputRow
     (lit "Summer 2025") (VStr (lit "Acme")) None;
   LinkedInScraperBatch.InputRow
     (lit "Summer 2025") (VStr (lit "Beta"))
     (Some (lit "linkedin.com/company/beta"))].

(** A table of ten companies with a link. *)
Definition ten_rows : list LinkedInScraperBatch.input_row :=
  repeat (LinkedInScraperBatch.InputRow
            (lit "Summer 2025") (VStr (lit "Beta"))
            (Some (lit "linkedin.com/company/beta"))) 10.

End MoreSamples.

(* ================================================================== *)
(** * Sample inputs *)
(* ================================================================== *)

(** The inputs the examples of the specification and the theorems below are
    evaluated on. *)
Module Samples.
Import Py.

(** The store of the end-to-end example, and the files that hold it. *)
Definition acme_store : list LinkedInMultiPageSearch.row :=
  [LinkedInMultiPageSearch.Row
     (Some (lit "Acme")) (Some (lit "site.example/company/acme")) []].

Definition one_store : Fs.files LinkedInMultiPageSearch.row :=
  [(LinkedInMultiPageSearch.data_csv, acme_store)].

Definition beta : LinkedInMultiPageSearch.company :=
  LinkedInMultiPageSearch.Company (lit "Beta") (Some []).

(** A page body that shows [n] markers at every read. *)
Definition steady (n : nat) : nat -> str :=
  fun _ => List.concat (repeat LinkedInMultiPageSearch.marker n).

(** A page body that shows [4 * r] markers at the read number [r]. *)
Definition growing : nat -> str :=
  fun r => List.concat (repeat (lit "Acme (YC S25) ") (4 * r)).

(** The fields of a page on which only the title and the description were
    found. *)
Definition fields (name description : str) : YCScraperUniversal.page_fields :=
  YCScraperUniversal.PageFields name description [] [] [] [] [] [] [] [] [].

(** A record of the batch scraper, by title. *)
Definition acme_record (name : str) : dict :=
  YCScraperUniversal.extracted_record
    (lit "Summer 2025") (lit "https://www.ycombinator.com/companies/acme")
    (fields name (lit "Rockets")).

Definition acme_labs_url : str :=
  lit "https://www.ycombinator.com/companies/acme-labs".

End Samples.

(* ================================================================== *)
(** * Properties of the strings and of the files *)
(* ================================================================== *)

Module PyProps.
Import Py.

(** ** Sets of strings *)

Lemma mem_true x l : mem x l = true <-> In x l.
Proof.
  unfold mem. destruct (in_dec str_eq_dec x l); split; auto; discriminate.
Qed.

Lemma mem_false x l : mem x l = false <-> ~ In x l.
Proof.
  unfold mem. destruct (in_dec str_eq_dec x l); split; auto;
    [discriminate | contradiction].
Qed.

Lemma lower_nil s : lower s = [] <-> s = [].
Proof.
  split; [| intros ->; reflexivity].
  destruct s as [| c s]; [reflexivity |].
  unfold lower, cp_lower_full. simpl. destruct (c =? 304)%N; discriminate.
Qed.

Lemma not_existsb_forall (A : Type) (f : A -> bool) l :
  negb (existsb f l) = true <-> forall x, In x l -> f x = false.
Proof.
  induction l as [| a l IH]; simpl.
  - split; [intros _ x [] | reflexivity].
  - rewrite negb_orb, andb_true_iff, IH, negb_true_iff. split.
    + intros [Ha Hl] x [<- | Hx]; auto.
    + intro H. split; [apply H; now left | intros x Hx; apply H; now right].
Qed.

Lemma str_eqb_refl s : str_eqb s s = true.
Proof. unfold str_eqb. destruct (str_eq_dec s s); [reflexivity | contradiction]. Qed.

Lemma str_eqb_neq s t : s <> t -> str_eqb s t = false.
Proof. unfold str_eqb. destruct (str_eq_dec s t); [contradiction | reflexivity]. Qed.

End PyProps.

Module FsProps.
Import Py PyProps.

Section Files.

Variable R : Type.

Lemma lookup_remove_other p q (fs : Fs.files R) :
  p <> q -> Fs.lookup q (Fs.remove p fs) = Fs.lookup q fs.
Proof.
  intro Hne. induction fs as [| [p' rows] fs IH]; simpl; [reflexivity |].
  unfold str_eqb at 1. destruct (str_eq_dec p' p) as [-> | Hp].
  - rewrite IH, str_eqb_neq by exact Hne. reflexivity.
  - simpl. rewrite IH. reflexivity.
Qed.

Lemma lookup_write_same p rows (fs : Fs.files R) :
  Fs.lookup p (Fs.write p rows fs) = Some rows.
Proof. unfold Fs.write. simpl. now rewrite str_eqb_refl. Qed.

Lemma lookup_write_other p q rows (fs : Fs.files R) :
  p <> q -> Fs.lookup q (Fs.write p rows fs) = Fs.lookup q fs.
Proof.
  intro Hne. unfold Fs.write. simpl.
  rewrite str_eqb_neq by exact Hne. now apply lookup_remove_other.
Qed.

(** The notion of an atomic write is met by the events it is named
    after: a table written to a temporary file that then replaces the
    store leaves the store as before or as after, wherever it is cut. *)
Lemma swap_is_atomic store tmp frame (fs : Fs.files R) :
  tmp <> store ->
  Fs.atomic store fs [Fs.ToCsv tmp frame; Fs.Replace tmp store].
Proof.
  intros Hne i k. unfold Fs.interrupted_at.
  destruct i as [| [| i]]; simpl.
  - left. now apply lookup_write_other.
  - left. now apply lookup_write_other.
  - right. destruct i; reflexivity.
Qed.

End Files.

End FsProps.

(* ================================================================== *)
(** * Properties of linkedin_scraper.py *)
(* ================================================================== *)

Module LinkedInScraperProps.
Import Py Re LinkedInScraper.

(** ** The followers count *)

(** C2.  On "1.2K followers" the code returns "12000", not 1200: the dot is
    removed from the matched text before the number is read, so that the
    suffix multiplies 12.  On "3M abonnes" (written with U+00E9) it returns
    "3000000", and on "no mention here" it returns [None]. *)
Theorem extract_followers_count_examples :
  extract_followers_count (lit "1.2K followers") = Some (lit "12000")
  /\ extract_followers_count (lit "3M abonn" ++ [233%N] ++ lit "s")
     = Some (lit "3000000")
  /\ extract_followers_count (lit "no mention here") = None.
Proof.
  repeat split; vm_compute; reflexivity.
Qed.

(** The first pattern of the table is the one that matches "1.2K followers",
    and what it captures is "1.2K". *)
Lemma first_pattern_captures :
  search (nth 0 patterns (In [])) (lit "1.2K followers")
  = Some (Some (lit "1.2K")).
Proof. vm_compute. reflexivity. Qed.

(** ** The batch indicator *)

(** C9.  A batch label that contains none of "Spring 2025", "Summer 2025"
    and "Winter 2025" has no indicator, and no text is classified as
    carrying its indicator. *)
Theorem unknown_batch_has_no_indicator (batch_name : str) :
  contains (lit "Spring 2025") batch_name = false ->
  contains (lit "Summer 2025") batch_name = false ->
  contains (lit "Winter 2025") batch_name = false ->
  batch_indicators batch_name = []
  /\ forall text, check_yc_batch_indicator text batch_name = false.
Proof.
  intros Hspring Hsummer Hwinter.
  assert (Hnone : batch_indicators batch_name = []).
  { unfold batch_indicators. rewrite Hspring, Hsummer, Hwinter. reflexivity. }
  split; [exact Hnone |].
  intro text. unfold check_yc_batch_indicator. rewrite Hnone. reflexivity.
Qed.

Lemma unknown_batch_has_no_indicator_witness :
  batch_indicators (lit "Fall 2024") = []
  /\ forall text, check_yc_batch_indicator text (lit "Fall 2024") = false.
Proof.
  apply (@unknown_batch_has_no_indicator (lit "Fall 2024")); reflexivity.
Defined.

(** The three labels are recognized: each has five indicators. *)
Lemma known_batches_have_indicators (batch_name : str) :
  contains (lit "Spring 2025") batch_name
  || contains (lit "Summer 2025") batch_name
  || contains (lit "Winter 2025") batch_name = true ->
  length (batch_indicators batch_name) = 5.
Proof.
  unfold batch_indicators.
  destruct (contains (lit "Spring 2025") batch_name); [reflexivity |].
  destruct (contains (lit "Summer 2025") batch_name); [reflexivity |].
  destruct (contains (lit "Winter 2025") batch_name); [reflexivity |].
  discriminate.
Qed.

(** ** The scraping of one company *)

(** C10.  With no URL ([None], an empty cell or the empty string) the result
    is the record with the empty URL, no followers count, no indicator and
    the error 'No LinkedIn URL provided', and nothing is asked of the
    browser: no driver is set up and no page is fetched. *)
Theorem no_url_returns_at_once
        (world : nat -> attempt_outcome) (batch_name : str)
        (max_retries : nat) :
  let answer :=
    ([("linkedin_url"%string, VStr []);
      ("followers_count"%string, VNone);
      ("has_yc_batch_indicator"%string, VBool false);
      ("error"%string, VStr (lit "No LinkedIn URL provided"))],
     @nil event) in
  scrape_linkedin_company world UNone batch_name max_retries = answer
  /\ scrape_linkedin_company world UNaN batch_name max_retries = answer
  /\ scrape_linkedin_company world (UStr []) batch_name max_retries = answer.
Proof.
  repeat split.
Qed.

(** The loop only adds to the log of what is asked of the browser. *)
Lemma attempts_log_grows world url batch_name n a rem log :
  exists more, snd (attempts world url batch_name n a rem log) = log ++ more.
Proof.
  revert a log. induction rem as [| rem IH]; intros a log; simpl.
  - exists []. now rewrite app_nil_r.
  - destruct (world a) as [| e | page_text].
    + destruct (IH (S a) (log ++ [SetupDriver])) as [more ->].
      exists (SetupDriver :: more). now rewrite <- app_assoc.
    + destruct (a =? n - 1).
      * now eexists.
      * destruct (IH (S a) (log ++ [SetupDriver; Get url; Quit])) as [more ->].
        exists ([SetupDriver; Get url; Quit] ++ more). now rewrite <- app_assoc.
    + now eexists.
Qed.

Lemma error_of_result url f i e : dict_get "error" (result url f i e) = Some e.
Proof. reflexivity. Qed.

Lemma error_of_page_result url batch_name page_text :
  dict_get "error" (page_result url batch_name page_text) = Some VNone
  <-> Spec.page_found page_text.
Proof.
  unfold page_result, Spec.page_found.
  destruct (contains (lit "Page not found") page_text);
    destruct (contains (lit "This page doesn't exist") page_text);
    simpl; rewrite ?error_of_result; split;
    try (intros [? ?]; discriminate); try discriminate; auto.
Qed.

(** The error of the result of the loop is [None] exactly when one of the
    attempts left reads a page that is found, the attempts before it having
    read none. *)
Lemma attempts_error world url batch_name n :
  forall rem a log,
    a + rem = n ->
    (dict_get "error" (fst (attempts world url batch_name n a rem log))
     = Some VNone
     <-> exists k page_text,
        a <= k < n
        /\ world k = Loaded page_text
        /\ Spec.page_found page_text
        /\ forall j, a <= j < k -> forall t, world j <> Loaded t).
Proof.
  induction rem as [| rem IH]; intros a log Hn; simpl.
  - split; [discriminate |]. intros (k & _ & Hk & _). lia.
  - assert (Hstep : forall log',
               (forall t, world a <> Loaded t) ->
               a <> n - 1 ->
               (dict_get "error"
                  (fst (attempts world url batch_name n (S a) rem log'))
                = Some VNone
                <-> exists k page_text,
                   a <= k < n /\ world k = Loaded page_text
                   /\ Spec.page_found page_text
                   /\ forall j, a <= j < k -> forall t, world j <> Loaded t)).
    { intros log' Hworld Hlast. rewrite (IH (S a) log') by lia. split.
      - intros (k & text & Hk & Hload & Hfound & Hbefore).
        exists k, text.
        split; [lia |]. split; [exact Hload |]. split; [exact Hfound |].
        intros j Hj t. destruct (Nat.eq_dec j a) as [-> |]; [apply Hworld |].
        apply Hbefore. lia.
      - intros (k & text & Hk & Hload & Hfound & Hbefore).
        assert (k <> a) by (intros ->; exact (Hworld _ Hload)).
        exists k, text.
        split; [lia |]. split; [exact Hload |]. split; [exact Hfound |].
        intros j Hj. apply Hbefore. lia. }
    destruct (world a) as [| e | page_text] eqn:Hworld.
    + destruct (Nat.eq_dec a (n - 1)) as [Hlast | Hlast].
      * (* the last attempt: the loop ends on "All attempts failed" *)
        assert (rem = 0) by lia. subst rem. simpl. split; [discriminate |].
        intros (k & text & Hk & Hload & _).
        assert (k = a) by lia. subst k. congruence.
      * apply Hstep; [intros t; discriminate | exact Hlast].
    + destruct (a =? n - 1) eqn:Hlast.
      * simpl. split; [discriminate |].
        apply Nat.eqb_eq in Hlast.
        intros (k & text & Hk & Hload & _).
        assert (k = a) by lia. subst k. congruence.
      * apply Nat.eqb_neq in Hlast.
        apply Hstep; [intros t; discriminate | exact Hlast].
    + simpl. rewrite error_of_page_result. split.
      * intro Hfound. exists a, page_text.
        split; [lia |]. split; [exact Hworld |]. split; [exact Hfound |].
        intros j Hj. lia.
      * intros (k & text & Hk & Hload & Hfound & Hbefore).
        destruct (Nat.eq_dec k a) as [-> |].
        -- congruence.
        -- exfalso. apply (Hbefore a ltac:(lia) page_text). exact Hworld.
Qed.

Lemma attempts_has_error world url batch_name n :
  forall rem a log,
    has_key "error" (fst (attempts world url batch_name n a rem log)) = true.
Proof.
  induction rem as [| rem IH]; intros a log; simpl; [reflexivity |].
  destruct (world a) as [| e | page_text]; [apply IH | | ].
  - destruct (a =? n - 1); [reflexivity | apply IH].
  - simpl. unfold page_result.
    destruct (_ || _); reflexivity.
Qed.

End LinkedInScraperProps.

(* ================================================================== *)
(** * Properties of linkedin_yc_search.py *)
(* ================================================================== *)

Module LinkedInMultiPageSearchProps.
Import Py PyProps LinkedInMultiPageSearch Samples.

(** ** The identities of the rows read *)

Lemma existing_companies_spec df t :
  In t (existing_companies df) <-> Spec.existing_title Title df t.
Proof.
  unfold Spec.existing_title, Spec.normalize.
  induction df as [| r df IH]; simpl.
  - split; [contradiction | intros (r & s & [] & _)].
  - destruct (Title r) as [s |] eqn:Ht; simpl; rewrite ?IH; split.
    + intros [<- | (r' & s' & Hin & Hs & ->)].
      * exists r, s. auto.
      * exists r', s'. auto.
    + intros (r' & s' & [<- | Hin] & Hs & ->).
      * left. congruence.
      * right. exists r', s'. auto.
    + intros (r' & s' & Hin & Hs & ->). exists r', s'. auto.
    + intros (r' & s' & [<- | Hin] & Hs & ->); [congruence |].
      exists r', s'. auto.
Qed.

Lemma existing_links_spec df l :
  In l (existing_links df) <-> Spec.existing_link Linkedin_Link df l.
Proof.
  unfold Spec.existing_link, Spec.normalize.
  induction df as [| r df IH]; simpl.
  - split; [contradiction | intros (r & s & [] & _)].
  - destruct (Linkedin_Link r) as [s |] eqn:Hl.
    + destruct (strip s) as [| c s0] eqn:Hs; simpl; rewrite ?IH; split.
      * intros (r' & s' & Hin & Hs' & -> & Hne). exists r', s'. auto.
      * intros (r' & s' & [<- | Hin] & Hs' & -> & Hne).
        -- exfalso. apply Hne.
           assert (s' = s) by congruence. subst s'. now rewrite Hs.
        -- exists r', s'. auto.
      * intros [<- | (r' & s' & Hin & Hs' & -> & Hne)].
        -- exists r, s. rewrite Hs.
           split; [now left |]. split; [exact Hl |]. split; [reflexivity |].
           intro H. unfold cp_lower_full in H.
           destruct (c =? 304)%N; discriminate H.
        -- exists r', s'. auto.
      * intros (r' & s' & [<- | Hin] & Hs' & -> & Hne).
        -- left. assert (s' = s) by congruence. subst s'. now rewrite Hs.
        -- right. exists r', s'. auto.
    + rewrite IH. split.
      * intros (r' & s' & Hin & Hs' & -> & Hne). exists r', s'. auto.
      * intros (r' & s' & [<- | Hin] & Hs' & -> & Hne); [congruence |].
        exists r', s'. auto.
Qed.

(** The test of the loop is the rule of the specification. *)
Lemma is_duplicate_spec df c :
  is_duplicate_title df c || is_duplicate_link df c = true
  <-> Spec.duplicate Title Linkedin_Link df (title c) (Spec.candidate_link c).
Proof.
  unfold Spec.duplicate. rewrite orb_true_iff.
  unfold is_duplicate_title, is_duplicate_link, title_lower.
  rewrite mem_true, existing_companies_spec.
  assert (Hlink :
            match link_lower c with
            | [] => false
            | _ :: _ => mem (link_lower c) (existing_links df)
            end = true
            <-> Spec.candidate_link c <> []
                /\ Spec.existing_link Linkedin_Link df
                     (Spec.normalize (Spec.candidate_link c))).
  { unfold link_lower, Spec.candidate_link, Spec.normalize.
    set (link := match linkedin_url c with Some l => l | None => [] end).
    destruct (lower (strip link)) as [| x l] eqn:Hlow.
    - split; [discriminate |].
      intros (_ & r & s & _ & _ & _ & Hne). now elim Hne.
    - rewrite mem_true, existing_links_spec. split; [| tauto].
      intro H. split; [| exact H].
      intros Hnil. rewrite Hnil in Hlow. discriminate. }
  rewrite Hlink. reflexivity.
Qed.

Lemma accepted_iff df c :
  negb (is_duplicate_title df c) && negb (is_duplicate_link df c) = true
  <-> ~ Spec.duplicate Title Linkedin_Link df (title c) (Spec.candidate_link c).
Proof.
  rewrite <- is_duplicate_spec, <- negb_orb, negb_true_iff.
  destruct (is_duplicate_title df c || is_duplicate_link df c);
    split; congruence.
Qed.

(** ** The merge *)

(** C3.  A candidate of the batch is rejected exactly when its normalized
    title is among the normalized titles of the store, or its link is not
    empty and its normalized link is among the normalized non-empty links of
    the store.  With the store [{Acme, site.example/company/acme}]: the
    candidate {Acme, site.example/company/acme-inc} is rejected for its
    title, {Beta, ''} is accepted, and {'', site.example/company/acme} is
    rejected for its link. *)
Theorem duplicate_decision_rule :
  (forall store before after c,
      ~ In c (new_companies store (before ++ c :: after))
      <-> Spec.duplicate Title Linkedin_Link store
                         (title c) (Spec.candidate_link c))
  /\ (let c := Company (lit "Acme")
                       (Some (lit "site.example/company/acme-inc")) in
      is_duplicate_title acme_store c = true
      /\ is_duplicate_link acme_store c = false
      /\ new_companies acme_store [c] = [])
  /\ (let c := Company (lit "Beta") (Some []) in
      new_companies acme_store [c] = [c])
  /\ (let c := Company [] (Some (lit "site.example/company/acme")) in
      is_duplicate_title acme_store c = false
      /\ is_duplicate_link acme_store c = true
      /\ new_companies acme_store [c] = []).
Proof.
  split; [| repeat split].
  intros store before after c. unfold new_companies.
  rewrite filter_In, <- is_duplicate_spec.
  split.
  - intro Hout.
    destruct (is_duplicate_title store c || is_duplicate_link store c) eqn:Hd;
      [reflexivity |].
    exfalso. apply Hout. split.
    + apply in_or_app. right. left. reflexivity.
    + rewrite <- negb_orb, Hd. reflexivity.
  - intros Hd [_ Hacc]. rewrite <- negb_orb, Hd in Hacc. discriminate.
Qed.

Lemma count_occ_filter (f : company -> bool) l c :
  count_occ company_eq_dec (filter f l) c
  = if f c then count_occ company_eq_dec l c else 0.
Proof.
  induction l as [| x l IH]; simpl.
  - now destruct (f c).
  - destruct (company_eq_dec x c) as [-> | Hne].
    + destruct (f c) eqn:Hf; simpl.
      * destruct (company_eq_dec c c); [| contradiction]. now rewrite IH.
      * exact IH.
    + destruct (f x); simpl; [| exact IH].
      destruct (company_eq_dec x c); [contradiction | exact IH].
Qed.

(** C1.  Of two identical candidates of one batch the merge accepts both or
    none, never exactly one: the sets of existing titles and links are not
    extended while the batch is gone through.  With no store yet, the batch
    of twice {Acme, ''} is written as two rows. *)
Theorem identical_candidates_both_or_none :
  (forall store before between after c,
      count_occ company_eq_dec
        (new_companies store (before ++ c :: between ++ c :: after)) c <> 1)
  /\ (let c := Company (lit "Acme") (Some []) in
      save_results [] [c; c]
      = ([Fs.ReadCsv data_csv; Fs.ToCsv data_csv [new_row c; new_row c]],
         Some 2)).
Proof.
  split; [| reflexivity].
  intros store before between after c. unfold new_companies.
  rewrite count_occ_filter.
  destruct (negb (is_duplicate_title store c)
            && negb (is_duplicate_link store c)); [| discriminate].
  rewrite count_occ_app, count_occ_cons_eq by reflexivity.
  rewrite count_occ_app, count_occ_cons_eq by reflexivity.
  lia.
Qed.

(** ** The scrolling loop *)

Section Scrolling.

Variable body : nat -> str.

Let marks (r : nat) : nat := count marker (body r).

Lemma scroll_round_eq initial_count scroll_round remaining refreshes :
  scroll body initial_count scroll_round (S remaining) refreshes
  = if 10 <=? marks (S scroll_round)
    then (Converged (S scroll_round), S scroll_round, refreshes)
    else if (5 <? scroll_round) && (marks (S scroll_round) =? initial_count)
    then scroll body initial_count (S scroll_round) remaining
                (refreshes ++ [scroll_round])
    else scroll body initial_count (S scroll_round) remaining refreshes.
Proof. reflexivity. Qed.

(** The loop stops in the first round that counts ten markers. *)
Lemma scroll_converges initial_count R :
  forall remaining scroll_round refreshes,
    scroll_round < R <= scroll_round + remaining ->
    (forall r, scroll_round < r < R -> marks r < 10) ->
    10 <= marks R ->
    exists refreshes',
      scroll body initial_count scroll_round remaining refreshes
      = (Converged R, R, refreshes').
Proof.
  induction remaining as [| remaining IH];
    intros scroll_round refreshes HR Hbelow Hreach; [lia |].
  rewrite scroll_round_eq.
  destruct (Nat.eq_dec (S scroll_round) R) as [<- | Hlater].
  - apply Nat.leb_le in Hreach. rewrite Hreach. now eexists.
  - assert (Hlow : marks (S scroll_round) < 10) by (apply Hbelow; lia).
    apply Nat.leb_gt in Hlow. rewrite Hlow.
    destruct ((5 <? scroll_round) && (marks (S scroll_round) =? initial_count));
      apply IH; try lia; intros r Hr; apply Hbelow; lia.
Qed.

(** The loop runs out of rounds when no round counts ten markers. *)
Lemma scroll_exhausts initial_count :
  forall remaining scroll_round refreshes,
    (forall r, scroll_round < r <= scroll_round + remaining -> marks r < 10) ->
    exists refreshes',
      scroll body initial_count scroll_round remaining refreshes
      = (Exhausted, scroll_round + remaining, refreshes').
Proof.
  induction remaining as [| remaining IH];
    intros scroll_round refreshes Hbelow.
  - simpl. rewrite Nat.add_0_r. now eexists.
  - rewrite scroll_round_eq.
    assert (Hlow : marks (S scroll_round) < 10) by (apply Hbelow; lia).
    apply Nat.leb_gt in Hlow. rewrite Hlow.
    replace (scroll_round + S remaining) with (S scroll_round + remaining)
      by lia.
    destruct ((5 <? scroll_round) && (marks (S scroll_round) =? initial_count));
      apply IH; intros r Hr; apply Hbelow; lia.
Qed.

End Scrolling.

(** C7, as stated, fails: a count that never changes but is 10 or more
    from the start ends the scrolling in its first round, in [Converged],
    not in [Exhausted]; and the count of the second read, 10 or more as
    well, does not make the second round the one the scrolling stops in. *)
Lemma steady_twelve_converges :
  (forall r, count marker (steady 12 r) = count marker (steady 12 0))
  /\ 10 <= count marker (steady 12 2)
  /\ forall extract urls,
      fst (search_page (steady 12) extract urls) = Converged 1
      /\ fst (search_page (steady 12) extract urls) <> Exhausted
      /\ fst (search_page (steady 12) extract urls) <> Converged 2.
Proof.
  split; [reflexivity |].
  split; [vm_compute; lia |].
  intros extract urls. split; [reflexivity | split; discriminate].
Qed.

(** C7, amended.  When the count first reaches the minimum of 10 in the
    round [R] of the 20 rounds, the scrolling stops in [Converged] in the
    round [R]; when the count never changes and is below 10, the scrolling
    ends in [Exhausted] after the 20 rounds, and the companies returned are
    those of the page as it then is. *)
Theorem scroll_convergence
        (body : nat -> str) (extract : str -> list str)
        (urls : list (str * str)) (R : nat) :
  (1 <= R <= 20 ->
   (forall r, 1 <= r < R -> count marker (body r) < 10) ->
   10 <= count marker (body R) ->
   fst (search_page body extract urls) = Converged R)
  /\ ((forall r, 1 <= r <= 20 ->
                 count marker (body r) = count marker (body 0)) ->
      count marker (body 0) < 10 ->
      search_page body extract urls
      = (Exhausted,
         map (fun name => Company name (Some (match_url name urls)))
             (extract (body 21)))).
Proof.
  split.
  - intros HR Hbelow Hreach.
    destruct (@scroll_converges body (count marker (body 0)) R 20 0 [])
      as [refreshes Hscroll];
      [lia | intros r Hr; apply Hbelow; lia | exact Hreach |].
    unfold search_page, scrolling. rewrite Hscroll. reflexivity.
  - intros Hsame Hlow.
    destruct (@scroll_exhausts body (count marker (body 0)) 20 0 [])
      as [refreshes Hscroll].
    { intros r Hr. rewrite Hsame by lia. exact Hlow. }
    unfold search_page, scrolling. rewrite Hscroll. reflexivity.
Qed.

Lemma scroll_convergence_witness :
  fst (search_page growing (fun _ => []) []) = Converged 3
  /\ search_page (steady 4) (fun text => [text]) []
     = (Exhausted, [Company (steady 4 21) (Some [])]).
Proof.
  split.
  - apply (proj1 (scroll_convergence growing (fun _ => []) [] 3)).
    + lia.
    + intros r Hr.
      assert (Hcases : r = 1 \/ r = 2) by lia.
      destruct Hcases as [-> | ->]; vm_compute; lia.
    + vm_compute. lia.
  - apply (proj2 (scroll_convergence (steady 4) (fun text => [text]) [] 0)).
    + intros r Hr. reflexivity.
    + vm_compute. lia.
Defined.

End LinkedInMultiPageSearchProps.

(* ================================================================== *)
(** * Properties of yc_scraper.py *)
(* ================================================================== *)

Module YCScraperUniversalProps.
Import Py PyProps YCScraperUniversal.

(** ** The tags *)

(** The test of the code on a trimmed line is the rule of the
    specification. *)
Lemma is_tag_spec line : is_tag line = true <-> Spec.qualifies_as_tag line.
Proof.
  unfold is_tag, Spec.qualifies_as_tag.
  rewrite !andb_true_iff, not_existsb_forall, negb_true_iff, mem_false.
  rewrite !Nat.ltb_lt. intuition lia.
Qed.

Lemma tags_of_lines_spec lines t :
  In t (tags_of_lines lines)
  <-> exists line, In line lines /\ t = strip line /\ is_tag t = true.
Proof.
  induction lines as [| l lines IH]; simpl.
  - split; [contradiction | intros (line & [] & _)].
  - destruct (is_tag (strip l)) eqn:Htag; simpl; rewrite IH; split.
    + intros [<- | (line & Hin & Ht & Hq)].
      * exists l. auto.
      * exists line. auto.
    + intros (line & [<- | Hin] & Ht & Hq).
      * left. auto.
      * right. exists line. auto.
    + intros (line & Hin & Ht & Hq). exists line. auto.
    + intros (line & [<- | Hin] & Ht & Hq).
      * subst t. congruence.
      * exists line. auto.
Qed.

(** C6, as stated, fails: the rule is applied to the trimmed line.  The
    line "A " is upper-case, of length 2, and is neither excluded nor a
    location, yet no tag is returned for it; the line "AI" followed by 30
    spaces is too long, yet the tag "AI" is returned for it. *)
Lemma untrimmed_line_is_not_decisive :
  (let line := lit "A " in
   In line (split [10%N] line)
   /\ Spec.qualifies_as_tag line
   /\ extract_tags line = [])
  /\ (let line := lit "AI" ++ repeat 32%N 30 in
      In line (split [10%N] line)
      /\ ~ Spec.qualifies_as_tag line
      /\ extract_tags line = [lit "AI"]).
Proof.
  split; cbv zeta.
  - split; [left; reflexivity |].
    split; [apply is_tag_spec; reflexivity | reflexivity].
  - split; [left; reflexivity |].
    split; [| reflexivity].
    rewrite <- is_tag_spec. vm_compute. discriminate.
Qed.

(** C6, amended.  A string is returned as a tag exactly when it is a line
    of the container text with the white space around it removed, and this
    trimmed line is entirely upper-case, has a length in [2,30), is not one
    of the excluded words and contains none of the location names. *)
Theorem tag_membership (container_text t : str) :
  In t (extract_tags container_text)
  <-> exists line,
      In line (split [10%N] container_text)
      /\ t = strip line
      /\ Spec.qualifies_as_tag t.
Proof.
  unfold extract_tags. rewrite tags_of_lines_spec.
  split; intros (line & Hin & Ht & Hq); exists line;
    (split; [exact Hin | split; [exact Ht | now apply is_tag_spec]]).
Qed.

(** ** The batch *)

Lemma scrape_loop_cons batch_name world url urls i companies log :
  scrape_loop batch_name world (url :: urls) i companies log
  = let companies :=
      companies ++ [record_of batch_name url (details_of world i)] in
    scrape_loop batch_name world urls (S i) companies
      (if (S i) mod 20 =? 0
       then log ++ [Fs.ToCsv (partial_file batch_name (S i)) companies]
       else log).
Proof. reflexivity. Qed.

(** The records of the loop: one for each URL, in order. *)
Lemma scrape_loop_records batch_name world :
  forall urls i companies log,
    fst (scrape_loop batch_name world urls i companies log)
    = companies
        ++ map (fun '(j, url) => record_of batch_name url (details_of world j))
               (combine (seq i (length urls)) urls).
Proof.
  induction urls as [| url urls IH]; intros i companies log.
  - simpl. now rewrite app_nil_r.
  - rewrite scrape_loop_cons. cbv zeta. rewrite IH, <- app_assoc. reflexivity.
Qed.

(** The partial files are written in place, and nothing is renamed. *)
Lemma scrape_loop_log batch_name world :
  forall urls i companies log e,
    In e (snd (scrape_loop batch_name world urls i companies log)) ->
    In e log \/ exists n frame, e = Fs.ToCsv (partial_file batch_name n) frame.
Proof.
  induction urls as [| url urls IH]; intros i companies log e.
  - simpl. auto.
  - rewrite scrape_loop_cons. cbv zeta.
    intro Hin. apply IH in Hin. destruct Hin as [Hin | Hin]; [| auto].
    destruct (S i mod 20 =? 0); [| auto].
    apply in_app_or in Hin. destruct Hin as [Hin | [<- | []]]; [auto |].
    right. now eexists _, _.
Qed.

Lemma record_has_no_error batch_name url details :
  has_key "Error" (record_of batch_name url details) = false.
Proof. destruct details; reflexivity. Qed.

Lemma record_page batch_name url details :
  dict_get "YC Page" (record_of batch_name url details) = Some (VStr url).
Proof. destruct details; reflexivity. Qed.

Lemma map_combine_seq (A B : Type) (f : nat -> A -> B) (g : A -> B) l :
  (forall j a, f j a = g a) ->
  forall i, map (fun '(j, a) => f j a) (combine (seq i (length l)) l) = map g l.
Proof.
  intro H. induction l as [| a l IH]; intro i; simpl; [reflexivity |].
  now rewrite H, IH.
Qed.

(** ** The table written *)

Lemma drop_duplicates_titles df :
  forall seen,
    NoDup (map (dict_get "Title") (drop_duplicates seen df))
    /\ (forall r, In r (drop_duplicates seen df) ->
                  ~ In (dict_get "Title" r) seen)
    /\ (forall r, In r df ->
                  In (dict_get "Title" r) seen
                  \/ In (dict_get "Title" r)
                        (map (dict_get "Title") (drop_duplicates seen df)))
    /\ (forall r, In r (drop_duplicates seen df) -> In r df).
Proof.
  induction df as [| r df IH]; intro seen; simpl.
  - repeat split; try contradiction. constructor.
  - destruct (in_dec cell_eq_dec (dict_get "Title" r) seen) as [Hseen | Hnew].
    + destruct (IH seen) as (Hnodup & Hfresh & Hkept & Hsub).
      repeat split; auto.
      intros r' [<- | Hin]; auto.
    + destruct (IH (dict_get "Title" r :: seen))
        as (Hnodup & Hfresh & Hkept & Hsub).
      split; [| split; [| split]].
      * simpl. constructor; [| exact Hnodup].
        intro Hin. apply in_map_iff in Hin. destruct Hin as (r' & Heq & Hin).
        apply (Hfresh r' Hin). left. now symmetry.
      * intros r' [<- | Hin]; [exact Hnew |].
        intro Hs. apply (Hfresh r' Hin). now right.
      * intros r' [<- | Hin]; [right; now left |].
        destruct (Hkept r' Hin) as [[Heq | Hs] | Hk].
        -- right. left. exact Heq.
        -- now left.
        -- right. now right.
      * intros r' [<- | Hin]; [now left | right; auto].
Qed.

Lemma title_of_selected companies r :
  dict_get "Title"
           (map (fun col => (col, cell companies r col)) required_columns)
  = Some (cell companies r "Title").
Proof. reflexivity. Qed.

End YCScraperUniversalProps.

(* ================================================================== *)
(** * The record store and the batches, across the scripts *)
(* ================================================================== *)

Module StoreProps.
Import Py PyProps FsProps Samples LinkedInMultiPageSearch.
Import LinkedInMultiPageSearchProps YCScraperUniversalProps.
Import LinkedInScraperProps.

Lemma save_results_trace fs companies :
  fst (save_results fs companies) = []
  \/ fst (save_results fs companies) = [Fs.ReadCsv data_csv]
  \/ fst (save_results fs companies)
     = [Fs.ReadCsv data_csv; Fs.ToCsv data_csv (updated fs companies)].
Proof.
  unfold save_results, updated.
  destruct companies as [| c companies]; [now left |].
  destruct (new_companies _ (c :: companies)); auto.
Qed.

Lemma save_to_csv_trace batch_name records filename :
  fst (YCScraperUniversal.save_to_csv batch_name records filename) = []
  \/ fst (YCScraperUniversal.save_to_csv batch_name records filename)
     = [Fs.ToCsv
          (match filename with
           | Some f => f
           | None => YCScraperUniversal.default_file batch_name
           end)
          (YCScraperUniversal.drop_duplicates
             [] (YCScraperUniversal.select_required records))].
Proof.
  unfold YCScraperUniversal.save_to_csv. destruct records; auto.
Qed.

(** ** Atomicity *)

(** C4, as stated, fails: the merge writes the updated table straight to
    [data.csv]; there is no temporary file and no replacement, and a write
    cut short before its first row leaves [data.csv] empty, which is
    neither the previous store nor the updated one. *)
Lemma in_place_write_is_not_atomic :
  let trace := fst (save_results one_store [beta]) in
  ~ Fs.write_new_then_swap data_csv trace
  /\ ~ Fs.atomic data_csv one_store trace
  /\ Fs.lookup data_csv (Fs.interrupted_at one_store trace 1 0) = Some [].
Proof.
  cbv zeta. split; [| split].
  - intros (tmp & frame & _ & Hwrites). vm_compute in Hwrites. discriminate.
  - intro Hatomic. destruct (Hatomic 1 0) as [H | H];
      vm_compute in H; discriminate.
  - reflexivity.
Qed.

(** C4, amended.  Every write of the record store is one [to_csv] of the
    full updated table to the store file itself: [save_results] changes the
    files by nothing, or by one write of the rows read followed by the new
    rows to [data.csv]; cut after [k] rows, the write leaves the first [k]
    rows of the updated table in [data.csv], and carried out to its end it
    leaves the updated table.  [save_to_csv] changes the files by nothing,
    or by one write of its table to the file named. *)
Theorem store_is_written_in_place
        (fs : Fs.files row) (companies : list company)
        (batch_name : str) (records : list dict) (filename : option str)
        (k : nat) :
  let trace := fst (save_results fs companies) in
  let trace' :=
    fst (YCScraperUniversal.save_to_csv batch_name records filename) in
  (Fs.writes trace = []
   \/ Fs.writes trace = [Fs.ToCsv data_csv (updated fs companies)])
  /\ (Fs.writes trace = [Fs.ToCsv data_csv (updated fs companies)] ->
      Fs.lookup data_csv (Fs.interrupted_at fs trace 1 k)
      = Some (firstn k (updated fs companies))
      /\ Fs.lookup data_csv (files_after fs companies)
         = Some (updated fs companies))
  /\ (Fs.writes trace' = []
      \/ exists path frame, Fs.writes trace' = [Fs.ToCsv path frame]).
Proof.
  cbv zeta. split; [| split].
  - destruct (save_results_trace fs companies) as [-> | [-> | ->]]; auto.
  - unfold files_after.
    destruct (save_results_trace fs companies) as [-> | [-> | ->]];
      try discriminate.
    intros _. unfold Fs.interrupted_at.
    cbn [nth_error firstn fold_left Fs.interrupted Fs.run].
    split; apply lookup_write_same.
  - destruct (save_to_csv_trace batch_name records filename) as [-> | ->];
      [now left | right; now eexists _, _].
Qed.

Lemma store_is_written_in_place_witness :
  Fs.lookup data_csv
            (Fs.interrupted_at one_store
               (fst (save_results one_store [beta])) 1 1)
  = Some acme_store
  /\ Fs.lookup data_csv (files_after one_store [beta])
     = Some (acme_store ++ [new_row beta]).
Proof.
  apply (proj1 (proj2 (store_is_written_in_place
                         one_store [beta] [] [] None 1))).
  reflexivity.
Defined.

(** ** Uniqueness *)

(** C5, as stated, fails: the batch save compares the titles as they are,
    and does not compare the links.  The records titled "Acme" and "acme"
    are both written, and share their normalized title. *)
Lemma batch_save_keeps_titles_differing_in_case :
  let records := [acme_record (lit "Acme"); acme_record (lit "acme")] in
  exists path frame,
    fst (YCScraperUniversal.save_to_csv (lit "Summer 2025") records None)
    = [Fs.ToCsv path frame]
    /\ ~ Spec.unique Spec.record_title Spec.record_link frame.
Proof.
  cbv zeta. eexists _, _. split; [reflexivity |].
  intro Hunique.
  destruct (Hunique 0 1 _ _ ltac:(discriminate) eq_refl eq_refl)
    as [Htitle _].
  apply Htitle. exists (lit "Acme"), (lit "acme"). repeat split.
Qed.

(** C5, amended.  In the table the batch save writes no two rows have the
    same title, compared as it is, and every title of the records is kept;
    the table the merge writes is the rows read followed by one row for each
    accepted company, and an accepted company is a company of the batch
    whose normalized title is not among the normalized titles of the rows
    read, and whose link is empty or, normalized, not among their normalized
    non-empty links. *)
Theorem written_store_identities :
  (forall batch_name records filename path frame,
      In (Fs.ToCsv path frame)
         (fst (YCScraperUniversal.save_to_csv batch_name records filename)) ->
      NoDup (map (dict_get "Title") frame)
      /\ forall r, In r records ->
                   In (Some (YCScraperUniversal.cell records r "Title"))
                      (map (dict_get "Title") frame))
  /\ (forall fs companies path frame,
         In (Fs.ToCsv path frame) (fst (save_results fs companies)) ->
         frame = rows_read fs
                   ++ map new_row (new_companies (rows_read fs) companies)
         /\ forall c, In c (new_companies (rows_read fs) companies) ->
                      In c companies
                      /\ ~ Spec.duplicate Title Linkedin_Link (rows_read fs)
                                          (title c) (Spec.candidate_link c)).
Proof.
  split.
  - intros batch_name records filename path frame Hin.
    destruct (save_to_csv_trace batch_name records filename) as [H | H];
      rewrite H in Hin; [contradiction |].
    destruct Hin as [Heq | []]. injection Heq as _ <-.
    destruct (drop_duplicates_titles
                (YCScraperUniversal.select_required records) [])
      as (Hnodup & _ & Hkept & _).
    split; [exact Hnodup |].
    intros r Hr.
    destruct (Hkept (map (fun col =>
                            (col, YCScraperUniversal.cell records r col))
                         YCScraperUniversal.required_columns)) as [[] | Hk].
    + unfold YCScraperUniversal.select_required.
      apply in_map_iff. now exists r.
    + rewrite title_of_selected in Hk. exact Hk.
  - intros fs companies path frame Hin.
    destruct (save_results_trace fs companies) as [H | [H | H]];
      rewrite H in Hin.
    + contradiction.
    + destruct Hin as [Heq | []]. discriminate.
    + destruct Hin as [Heq | [Heq | []]]; [discriminate |].
      injection Heq as _ <-. split; [reflexivity |].
      intros c Hc. unfold new_companies in Hc.
      apply filter_In in Hc. destruct Hc as [Hc Hacc].
      split; [exact Hc | now apply accepted_iff].
Qed.

Lemma written_store_identities_witness :
  (let records := [acme_record (lit "Acme"); acme_record (lit "Acme")] in
   NoDup (map (dict_get "Title")
              (YCScraperUniversal.drop_duplicates
                 [] (YCScraperUniversal.select_required records))))
  /\ (updated one_store [beta]
      = rows_read one_store
          ++ map new_row (new_companies (rows_read one_store) [beta])).
Proof.
  split.
  - cbv zeta.
    refine (proj1 (proj1 written_store_identities
                         (lit "Summer 2025")
                         [acme_record (lit "Acme"); acme_record (lit "Acme")]
                         None _ _ _)).
    left. reflexivity.
  - refine (proj1 (proj2 written_store_identities
                         one_store [beta] data_csv _ _)).
    right. left. reflexivity.
Defined.

(** ** Failures in a batch *)

(** C8, as stated, fails for the batch of company pages: its records have
    no error field, and what a failed attempt did read is dropped.  When
    every attempt fails to set up a driver, the record is the placeholder
    and has no key "Error"; when every attempt reads the title "Acme" and
    neither a description nor a link, the record has the title made from the
    URL, "Acme Labs". *)
Lemma batch_records_have_no_error_field :
  (let world := fun _ _ : nat => YCScraperUniversal.SetupFailed in
   let records :=
     fst (YCScraperUniversal.scrape_batch
            (lit "Summer 2025") world [acme_labs_url]) in
   records
   = [YCScraperUniversal.failed_record (lit "Summer 2025") acme_labs_url]
   /\ map (has_key "Error") records = [false])
  /\ (let world :=
        fun _ _ : nat => YCScraperUniversal.Extracted (fields (lit "Acme") [])
      in
      map (dict_get "Title")
          (fst (YCScraperUniversal.scrape_batch
                  (lit "Summer 2025") world [acme_labs_url]))
      = [Some (VStr (lit "Acme Labs"))]).
Proof.
  repeat split.
Qed.

(** C8, amended.  Whatever the attempts meet, the batch of company pages
    yields one record for each URL, in order: the record of the data read
    when an attempt read a title and a description or a link, and otherwise
    the placeholder made of the batch label, a title made from the URL and
    the URL; these records have no error field.  The result of the LinkedIn
    extraction always has an error field, and this field is [None] exactly
    when a URL was given and an attempt within the budget read a page that
    does not say it is missing. *)
Theorem failures_do_not_abort_batch
        (batch_name : str)
        (world : nat -> nat -> YCScraperUniversal.attempt_outcome)
        (urls : list str)
        (li_world : nat -> LinkedInScraper.attempt_outcome)
        (linkedin_url : LinkedInScraper.url_arg)
        (li_batch : str) (retries : nat) :
  let records :=
    fst (YCScraperUniversal.scrape_batch batch_name world urls) in
  let result :=
    fst (LinkedInScraper.scrape_linkedin_company
           li_world linkedin_url li_batch retries) in
  records
  = map (fun '(i, url) =>
           YCScraperUniversal.record_of
             batch_name url (YCScraperUniversal.details_of world i))
        (combine (seq 0 (length urls)) urls)
  /\ map (dict_get "YC Page") records = map (fun url => Some (VStr url)) urls
  /\ forallb (fun r => negb (has_key "Error" r)) records = true
  /\ has_key "error" result = true
  /\ (dict_get "error" result = Some VNone
      <-> (exists c s, linkedin_url = LinkedInScraper.UStr (c :: s))
          /\ Spec.some_attempt_succeeds li_world retries).
Proof.
  cbv zeta.
  assert (Hrecords :
            fst (YCScraperUniversal.scrape_batch batch_name world urls)
            = map (fun '(i, url) =>
                     YCScraperUniversal.record_of
                       batch_name url (YCScraperUniversal.details_of world i))
                  (combine (seq 0 (length urls)) urls)).
  { unfold YCScraperUniversal.scrape_batch.
    now rewrite scrape_loop_records. }
  split; [exact Hrecords |]. rewrite Hrecords. split; [| split; [| split]].
  - rewrite map_map.
    rewrite <- (map_combine_seq
                  (fun j url =>
                     dict_get "YC Page"
                       (YCScraperUniversal.record_of
                          batch_name url
                          (YCScraperUniversal.details_of world j)))
                  (fun url => Some (VStr url)) urls
                  (fun j a => record_page _ _ _) 0).
    apply map_ext. now intros [j url].
  - apply forallb_forall. intros r Hr.
    apply in_map_iff in Hr. destruct Hr as ([j url] & <- & _).
    now rewrite record_has_no_error.
  - unfold LinkedInScraper.scrape_linkedin_company.
    destruct linkedin_url as [| | [| c s]]; try reflexivity.
    apply attempts_has_error.
  - unfold LinkedInScraper.scrape_linkedin_company,
      Spec.some_attempt_succeeds.
    destruct linkedin_url as [| | [| c s]];
      try (split; [discriminate | intros [(c & s & Hurl) _]; discriminate]).
    rewrite attempts_error by reflexivity. split.
    + intros (k & text & Hk & Hload & Hfound & Hbefore).
      split; [now eexists _, _ |].
      exists k, text. repeat split; try lia; try apply Hfound; auto.
      intros j Hj. apply Hbefore. lia.
    + intros (_ & k & text & Hk & Hload & Hfound & Hbefore).
      exists k, text. repeat split; try lia; try apply Hfound; auto.
      intros j Hj. apply Hbefore. lia.
Qed.

End StoreProps.

(* ================================================================== *)
(** * More on the strings *)
(* ================================================================== *)

Module PyFacts.
Import Py PyProps Notions.

(** ** Prefixes and substrings *)

Lemma startswith_app p r : startswith p (p ++ r) = true.
Proof.
  induction p as [| a p IH]; simpl; [reflexivity |].
  now rewrite N.eqb_refl, IH.
Qed.

Lemma startswith_spec p s :
  startswith p s = true <-> exists r, s = p ++ r.
Proof.
  split.
  - revert s. induction p as [| a p IH]; intros s H.
    + now exists s.
    + destruct s as [| b s]; [discriminate |]. simpl in H.
      apply andb_true_iff in H. destruct H as [Hab H].
      apply N.eqb_eq in Hab. subst b.
      destruct (IH s H) as [r ->]. now exists r.
  - intros [r ->]. apply startswith_app.
Qed.

Lemma contains_eq p s :
  contains p s
  = startswith p s || match s with [] => false | _ :: s' => contains p s' end.
Proof. destruct s; reflexivity. Qed.

Lemma contains_spec p s :
  contains p s = true <-> exists a b, s = a ++ p ++ b.
Proof.
  split.
  - induction s as [| c s IH]; rewrite contains_eq; intro H;
      apply orb_true_iff in H; destruct H as [H | H]; try discriminate.
    + apply startswith_spec in H. destruct H as [r H]. now exists [], r.
    + apply startswith_spec in H. destruct H as [r H]. now exists [], r.
    + destruct (IH H) as (a & b & ->). now exists (c :: a), b.
  - intros (a & b & ->). induction a as [| c a IH].
    + rewrite contains_eq. simpl app. now rewrite startswith_app.
    + rewrite contains_eq. simpl. rewrite IH. apply orb_true_r.
Qed.

(** Text around a string does not hide what it contains. *)
Lemma contains_app p s before after :
  contains p s = true -> contains p (before ++ s ++ after) = true.
Proof.
  rewrite !contains_spec. intros (a & b & ->).
  exists (before ++ a), (b ++ after). now rewrite <- !app_assoc.
Qed.

(** ** Lower case *)

Lemma lower_app a b : lower (a ++ b) = lower a ++ lower b.
Proof. unfold lower. apply flat_map_app. Qed.

Lemma between_above lo hi c : (hi < c)%N -> between lo hi c = false.
Proof.
  intro H. unfold between. apply andb_false_iff. right.
  now apply N.leb_gt.
Qed.

Lemma eqb_above k c : (k < c)%N -> (c =? k)%N = false.
Proof. intro H. apply N.eqb_neq. lia. Qed.

(** A property of the code points that holds on all that the tables name
    holds on all code points, once it holds beyond them. *)
Lemma by_cases (P : N -> bool) (bound : N) :
  forallb P (map N.of_nat (seq 0 (S (N.to_nat bound)))) = true ->
  (forall c, (bound < c)%N -> P c = true) ->
  forall c, P c = true.
Proof.
  intros Hsmall Hlarge c.
  destruct (N.le_gt_cases c bound) as [Hle | Hgt];
    [| now apply Hlarge].
  rewrite forallb_forall in Hsmall. apply Hsmall.
  apply in_map_iff. exists (N.to_nat c). split; [apply N2Nat.id |].
  apply in_seq. lia.
Qed.

Lemma cp_lower_full_idem c :
  str_eqb (lower (cp_lower_full c)) (cp_lower_full c) = true.
Proof.
  revert c. apply (@by_cases (fun c => str_eqb (lower (cp_lower_full c))
                                              (cp_lower_full c)) 12288%N).
  - vm_compute. reflexivity.
  - intros c Hc.
    unfold lower, cp_lower_full, cp_lower. simpl.
    rewrite !between_above, !eqb_above by lia. simpl.
    rewrite !between_above, !eqb_above by lia. apply str_eqb_refl.
Qed.

(** Lower-casing twice is lower-casing once. *)
Lemma lower_idem s : lower (lower s) = lower s.
Proof.
  induction s as [| c s IH]; [reflexivity |].
  change (lower (c :: s)) with (cp_lower_full c ++ lower s).
  rewrite lower_app, IH. f_equal.
  pose proof (cp_lower_full_idem c) as H. unfold str_eqb in H.
  now destruct (str_eq_dec (lower (cp_lower_full c)) (cp_lower_full c)).
Qed.

(** ** Trimming *)

Lemma lstrip_fix s : starts_clean s -> lstrip s = s.
Proof. destruct s as [| c s]; simpl; [reflexivity | now intros ->]. Qed.

Lemma lstrip_spec s :
  exists spaces,
    s = spaces ++ lstrip s
    /\ forallb cp_isspace spaces = true
    /\ starts_clean (lstrip s).
Proof.
  induction s as [| c s (spaces & Hs & Hsp & Hclean)]; simpl.
  - now exists [].
  - destruct (cp_isspace c) eqn:Hc.
    + exists (c :: spaces). simpl. rewrite Hc, Hsp. repeat split; auto.
      now f_equal.
    + exists []. simpl. now rewrite Hc.
Qed.

(** What [strip] returns neither starts nor ends with white space. *)
Lemma strip_clean s :
  starts_clean (strip s) /\ starts_clean (rev (strip s)).
Proof.
  unfold strip, rstrip.
  destruct (lstrip_spec s) as (sp1 & _ & _ & Hclean1).
  destruct (lstrip_spec (rev (lstrip s))) as (sp2 & Hrev & _ & Hclean2).
  split; [| now rewrite rev_involutive].
  set (t := lstrip (rev (lstrip s))) in *.
  assert (Hl : lstrip s = rev t ++ rev sp2).
  { rewrite <- rev_app_distr, <- Hrev. now rewrite rev_involutive. }
  rewrite Hl in Hclean1.
  destruct (rev t) as [| c r]; simpl in *; [exact I | exact Hclean1].
Qed.

(** Trimming twice is trimming once. *)
Lemma strip_idem s : strip (strip s) = strip s.
Proof.
  destruct (strip_clean s) as [Hhead Hlast].
  unfold strip at 1. rewrite (lstrip_fix _ Hhead).
  unfold rstrip. rewrite (lstrip_fix _ Hlast). apply rev_involutive.
Qed.

Lemma strip_fix s :
  starts_clean s -> starts_clean (rev s) -> strip s = s.
Proof.
  intros Hhead Hlast. unfold strip. rewrite (lstrip_fix _ Hhead).
  unfold rstrip. rewrite (lstrip_fix _ Hlast). apply rev_involutive.
Qed.

(** ** Splitting and joining *)

Lemma split_go_skip sep t :
  forall s cur, split_go sep (t ++ s) cur (length t) = split_go sep s cur 0.
Proof.
  induction t as [| c t IH]; intros s cur; [reflexivity |].
  simpl. apply IH.
Qed.

Lemma split_go_nonempty sep s :
  forall cur skip, split_go sep s cur skip <> [].
Proof.
  induction s as [| c s IH]; intros cur skip; simpl; [discriminate |].
  destruct skip; [| apply IH].
  destruct (startswith sep (c :: s)); [discriminate | apply IH].
Qed.

Lemma join_cons sep x l :
  l <> [] -> join sep (x :: l) = x ++ sep ++ join sep l.
Proof. destruct l; [contradiction | reflexivity]. Qed.

(** One step of the splitting, at a separator and elsewhere. *)
Lemma split_go_at_sep sep c s cur :
  startswith sep (c :: s) = true ->
  split_go sep (c :: s) cur 0
  = rev cur :: split_go sep (skipn (length sep - 1) s) [] 0.
Proof.
  intro H. simpl. rewrite H. f_equal.
  apply startswith_spec in H. destruct H as [r H].
  destruct sep as [| a sep]; simpl in *.
  - reflexivity.
  - injection H as _ ->. rewrite Nat.sub_0_r.
    rewrite split_go_skip. f_equal.
    now rewrite skipn_app, skipn_all, Nat.sub_diag.
Qed.

Lemma split_go_join sep :
  sep <> [] ->
  forall n s cur,
    length s <= n -> join sep (split_go sep s cur 0) = rev cur ++ s.
Proof.
  intros Hsep. induction n as [| n IH]; intros s cur Hlen.
  - destruct s; [| simpl in Hlen; lia]. simpl. now rewrite app_nil_r.
  - destruct s as [| c s]; [simpl; now rewrite app_nil_r |].
    destruct (startswith sep (c :: s)) eqn:Hstart.
    + rewrite split_go_at_sep by exact Hstart.
      rewrite join_cons by apply split_go_nonempty.
      rewrite IH.
      * simpl. f_equal.
        apply startswith_spec in Hstart. destruct Hstart as [r Hr].
        destruct sep as [| a sep]; [contradiction |].
        simpl in Hr. injection Hr as <- ->. simpl. rewrite Nat.sub_0_r.
        rewrite skipn_app, skipn_all, Nat.sub_diag. reflexivity.
      * rewrite length_skipn. simpl in Hlen. lia.
    + simpl. rewrite Hstart. rewrite IH by (simpl in Hlen; lia).
      simpl. now rewrite <- app_assoc.
Qed.

(** Joining the pieces of a split with the separator gives the string
    back. *)
Lemma join_split sep s : sep <> [] -> join sep (split sep s) = s.
Proof.
  intro Hsep. unfold split.
  now rewrite (@split_go_join sep Hsep (length s) s [] (le_n _)).
Qed.

(** A string without the separator is its only piece; and the pieces of a
    string that starts with such a string and a separator are this string
    and the pieces of the rest. *)
Lemma split_go_free sep x :
  contains sep x = false ->
  forall cur, split_go sep x cur 0 = [rev cur ++ x].
Proof.
  induction x as [| c x IH]; intros Hfree cur.
  - simpl. now rewrite app_nil_r.
  - rewrite contains_eq in Hfree. apply orb_false_iff in Hfree.
    destruct Hfree as [Hstart Hfree].
    simpl. rewrite Hstart. rewrite IH by exact Hfree.
    simpl. now rewrite <- app_assoc.
Qed.

Lemma split_free sep x : contains sep x = false -> split sep x = [x].
Proof. intro H. unfold split. now rewrite split_go_free. Qed.

End PyFacts.

(* ================================================================== *)
(** * The matcher and the words of a pattern *)
(* ================================================================== *)

Module ReFacts.
Import Py PyProps Re ReLang Notions.






End ReFacts.

(* ================================================================== *)
(** * More on linkedin_scraper.py *)
(* ================================================================== *)

Module LinkedInScraperFacts.
Import Py PyProps PyFacts Re ReLang ReFacts Notions LinkedInScraper.
Import LinkedInScraperProps.

(** ** The followers count *)













(** ** The batch indicator *)

(** X2.  The test of the indicator does not depend on the case of the
    text, and text added before or after does not undo it. *)
Theorem indicator_ignores_case_and_context
        (text before after batch_name : str) :
  check_yc_batch_indicator (lower text) batch_name
  = check_yc_batch_indicator text batch_name
  /\ (check_yc_batch_indicator text batch_name = true ->
      check_yc_batch_indicator (before ++ text ++ after) batch_name = true).
Proof.
  unfold check_yc_batch_indicator. split.
  - now rewrite lower_idem.
  - rewrite !existsb_exists. intros (indicator & Hin & Hc).
    exists indicator. split; [exact Hin |].
    rewrite !lower_app. now apply contains_app.
Qed.

Lemma indicator_ignores_case_and_context_witness :
  check_yc_batch_indicator
    (lit "Acme " ++ lit "(yc s25)" ++ lit " | 120 followers")
    (lit "Summer 2025") = true.
Proof.
  apply (proj2 (indicator_ignores_case_and_context
                  (lit "(yc s25)") (lit "Acme ") (lit " | 120 followers")
                  (lit "Summer 2025"))).
  reflexivity.
Defined.

(** ** The sessions of one company *)

Lemma attempts_sessions world url batch_name n :
  forall rem a log,
    exists fetched,
      length fetched <= rem
      /\ snd (attempts world url batch_name n a rem log)
         = log ++ flat_map (session url) fetched.
Proof.
  induction rem as [| rem IH]; intros a log; simpl.
  - exists []. simpl. now rewrite app_nil_r.
  - destruct (world a) as [| e | page_text].
    + destruct (IH (S a) (log ++ [SetupDriver])) as (f & Hlen & ->).
      exists (false :: f). simpl. rewrite <- app_assoc. split; [lia | auto].
    + destruct (a =? n - 1).
      * exists [true]. simpl. split; [lia | reflexivity].
      * destruct (IH (S a) (log ++ [SetupDriver; Get url; Quit]))
          as (f & Hlen & ->).
        exists (true :: f). simpl. rewrite <- app_assoc. split; [lia | auto].
    + exists [true]. simpl. split; [lia | reflexivity].
Qed.

(** X3.  For the URL given, the browser is asked for at most [max_retries]
    drivers; a driver that is there is asked for one page and then ended,
    before the next driver is asked for; and the page asked for is the URL
    given, or "https://" followed by it, and starts with "http". *)
Theorem sessions_are_bounded_and_released
        (world : nat -> attempt_outcome) (given batch_name : str)
        (max_retries : nat) :
  exists url fetched,
    snd (scrape_linkedin_company world (UStr given) batch_name max_retries)
    = flat_map (session url) fetched
    /\ length fetched <= max_retries
    /\ startswith (lit "http") url = true
    /\ (url = given \/ url = lit "https://" ++ given).
Proof.
  unfold scrape_linkedin_company.
  destruct given as [| c s].
  { exists (lit "https://"), []. repeat split; auto. simpl. lia. }
  destruct (startswith (lit "http") (c :: s)) eqn:Hhttp.
  - destruct (attempts_sessions world (c :: s) batch_name max_retries
                                max_retries 0 [])
      as (fetched & Hlen & Hlog).
    exists (c :: s), fetched.
    split; [exact Hlog |]. split; [exact Hlen |]. split; [exact Hhttp |].
    now left.
  - destruct (attempts_sessions world (lit "https://" ++ c :: s) batch_name
                                max_retries max_retries 0 [])
      as (fetched & Hlen & Hlog).
    exists (lit "https://" ++ c :: s), fetched.
    split; [exact Hlog |]. split; [exact Hlen |]. split; [reflexivity |].
    now right.
Qed.

(** ** The result of one company *)

Lemma attempts_bare world url batch_name n :
  forall rem a log,
    let d := fst (attempts world url batch_name n a rem log) in
    dict_get "error" d = Some VNone \/ bare d.
Proof.
  induction rem as [| rem IH]; intros a log; simpl.
  - right. split; reflexivity.
  - destruct (world a) as [| e | page_text].
    + apply IH.
    + destruct (a =? n - 1); [right; split; reflexivity | apply IH].
    + simpl. unfold page_result.
      destruct (_ || _); [right; split; reflexivity | left; reflexivity].
Qed.

(** X4.  A result that carries an error carries no followers count and no
    indicator: they are set only in a result whose error is [None]. *)
Theorem failed_result_is_bare
        (world : nat -> attempt_outcome) (linkedin_url : url_arg)
        (batch_name : str) (max_retries : nat) :
  let d :=
    fst (scrape_linkedin_company world linkedin_url batch_name max_retries) in
  dict_get "error" d = Some VNone
  \/ (dict_get "followers_count" d = Some VNone
      /\ dict_get "has_yc_batch_indicator" d = Some (VBool false)).
Proof.
  unfold scrape_linkedin_company.
  destruct linkedin_url as [| | [| c s]];
    try (right; split; reflexivity).
  apply attempts_bare.
Qed.

Lemma attempts_reported world url batch_name n :
  forall rem a log,
    a + rem = n ->
    let error :=
      dict_get "error" (fst (attempts world url batch_name n a rem log)) in
    error = Some VNone
    \/ error = Some (VStr (lit "Page not found"))
    \/ error = Some (VStr (lit "All attempts failed"))
    \/ exists e, 0 < n /\ world (n - 1) = Raised e
                 /\ error = Some (VStr (firstn 100 e)).
Proof.
  induction rem as [| rem IH]; intros a log Hn; simpl.
  - auto.
  - destruct (world a) as [| e | page_text] eqn:Hworld.
    + apply IH. lia.
    + destruct (a =? n - 1) eqn:Hlast.
      * apply Nat.eqb_eq in Hlast. simpl. right. right. right.
        exists e. rewrite <- Hlast. split; [lia | auto].
      * apply IH. lia.
    + simpl. unfold page_result. destruct (_ || _); auto.
Qed.

(** X5.  The error of a result is [None] or one of three fixed messages, or
    the first 100 characters of the message of an exception, and then this
    exception is the one of the last attempt: those of the attempts before
    are not reported. *)
Theorem only_last_exception_is_reported
        (world : nat -> attempt_outcome) (linkedin_url : url_arg)
        (batch_name : str) (max_retries : nat) :
  let error :=
    dict_get "error"
      (fst (scrape_linkedin_company world linkedin_url batch_name
                                    max_retries)) in
  error = Some VNone
  \/ error = Some (VStr (lit "No LinkedIn URL provided"))
  \/ error = Some (VStr (lit "Page not found"))
  \/ error = Some (VStr (lit "All attempts failed"))
  \/ exists e,
      0 < max_retries
      /\ world (max_retries - 1) = Raised e
      /\ error = Some (VStr (firstn 100 e)).
Proof.
  unfold scrape_linkedin_company.
  destruct linkedin_url as [| | [| c s]]; auto.
  cbv zeta.
  destruct (attempts_reported world
              (if startswith (lit "http") (c :: s) then c :: s
               else lit "https://" ++ c :: s)
              batch_name max_retries 0 [] eq_refl)
    as [H | [H | [H | H]]]; auto 6.
Qed.

End LinkedInScraperFacts.

(* ================================================================== *)
(** * The batch of linkedin_scraper.py *)
(* ================================================================== *)

Module LinkedInScraperBatchFacts.
Import Py PyProps Notions MoreSamples LinkedInScraper LinkedInScraperBatch.
Import LinkedInScraperFacts.

Lemma linkedin_loop_cons world company companies i results files browser :
  scrape_loop world (company :: companies) i results files browser
  = let results := results ++ [scraped_row world i company] in
    scrape_loop world companies (S i) results
      (if (S i) mod 10 =? 0
       then files ++ [Fs.ToCsv (partial_file (S i)) results]
       else files)
      (browser ++ snd (scraped world i company)).
Proof. destruct company. reflexivity. Qed.

(** The rows, the files and the requests of the loop, one company after
    the other. *)
Lemma scrape_loop_results world :
  forall companies i results files browser,
    fst (fst (scrape_loop world companies i results files browser))
    = results
        ++ map (fun jc => scraped_row world (fst jc) (snd jc))
               (combine (seq i (length companies)) companies).
Proof.
  induction companies as [| company companies IH];
    intros i results files browser.
  - simpl. now rewrite app_nil_r.
  - rewrite linkedin_loop_cons. cbv zeta. rewrite IH, <- app_assoc.
    reflexivity.
Qed.

Lemma scrape_loop_browser world :
  forall companies i results files browser,
    snd (scrape_loop world companies i results files browser)
    = browser
        ++ flat_map (fun jc => snd (scraped world (fst jc) (snd jc)))
                    (combine (seq i (length companies)) companies).
Proof.
  induction companies as [| company companies IH];
    intros i results files browser.
  - simpl. now rewrite app_nil_r.
  - rewrite linkedin_loop_cons. cbv zeta. rewrite IH, <- app_assoc.
    reflexivity.
Qed.

Lemma firstn_prefix (A : Type) (a b : list A) :
  firstn (length a) (a ++ b) = a.
Proof.
  now rewrite firstn_app, Nat.sub_diag, firstn_all, firstn_O, app_nil_r.
Qed.

Lemma scrape_loop_files world :
  forall companies i results files browser,
    length results = i ->
    exists partials,
      snd (fst (scrape_loop world companies i results files browser))
      = files ++ partials
      /\ forall e, In e partials ->
           exists n,
             i < n <= i + length companies
             /\ n mod 10 = 0
             /\ e = Fs.ToCsv
                      (partial_file n)
                      (firstn n
                         (fst (fst (scrape_loop world companies i results
                                                files browser)))).
Proof.
  induction companies as [| company companies IH];
    intros i results files browser Hlen.
  - exists []. split; [simpl; now rewrite app_nil_r | contradiction].
  - rewrite linkedin_loop_cons. cbv zeta.
    set (results' := results ++ [scraped_row world i company]).
    assert (Hlen' : length results' = S i).
    { unfold results'. rewrite length_app. simpl. lia. }
    cbn [length].
    destruct (S i mod 10 =? 0) eqn:Hten.
    + destruct (IH (S i) results'
                   (files ++ [Fs.ToCsv (partial_file (S i)) results'])
                   (browser ++ snd (scraped world i company)) Hlen')
        as (partials & Hfiles & Hpartials).
      exists (Fs.ToCsv (partial_file (S i)) results' :: partials).
      split; [rewrite Hfiles, <- app_assoc; reflexivity |].
      intros e [<- | He].
      * exists (S i). split; [lia |].
        split; [now apply Nat.eqb_eq |].
        rewrite scrape_loop_results. f_equal. symmetry.
        rewrite <- Hlen' at 1. apply firstn_prefix.
      * destruct (Hpartials e He) as (n & Hn & Hmod & ->).
        exists n. split; [lia |]. split; [exact Hmod |].
        reflexivity.
    + destruct (IH (S i) results' files
                   (browser ++ snd (scraped world i company)) Hlen')
        as (partials & Hfiles & Hpartials).
      exists partials. split; [exact Hfiles |].
      intros e He. destruct (Hpartials e He) as (n & Hn & Hmod & ->).
      exists n. split; [lia |]. split; [exact Hmod |].
      reflexivity.
Qed.

(** The companies with a link are the rows with a non-empty link, each
    with its place in the table. *)
Lemma in_combine_seq (A : Type) (l : list A) :
  forall a i x,
    In (i, x) (combine (seq a (length l)) l)
    <-> a <= i /\ nth_error l (i - a) = Some x.
Proof.
  induction l as [| y l IH]; intros a i x; simpl.
  - split; [contradiction |]. intros [_ H]. now destruct (i - a).
  - rewrite IH. split.
    + intros [H | [Hle H]].
      * injection H as <- <-. rewrite Nat.sub_diag. split; [lia | auto].
      * split; [lia |]. replace (i - a) with (S (i - S a)) by lia. exact H.
    + intros [Hle H]. destruct (Nat.eq_dec i a) as [-> | Hne].
      * rewrite Nat.sub_diag in H. injection H as <-. now left.
      * right. split; [lia |].
        replace (i - a) with (S (i - S a)) in H by lia. exact H.
Qed.

Lemma linkedin_companies_spec rows idx company :
  In (idx, company) (linkedin_companies rows)
  <-> nth_error rows idx = Some company
      /\ exists c l, Linkedin_Link company = Some (c :: l).
Proof.
  unfold linkedin_companies. rewrite filter_In, in_combine_seq.
  rewrite Nat.sub_0_r. unfold has_link. simpl.
  split.
  - intros [[_ Hnth] Hlink]. split; [exact Hnth |].
    destruct (Linkedin_Link company) as [[| c l] |]; try discriminate.
    now exists c, l.
  - intros [Hnth (c & l & Hlink)]. rewrite Hlink.
    repeat split; auto. lia.
Qed.

Lemma output world rows :
  scrape_companies_linkedin world (Table rows)
  = match linkedin_companies rows with
    | [] => (None, [], [])
    | _ :: _ =>
        let out := scrape_loop world (linkedin_companies rows) 0 [] [] [] in
        (Some (fst (fst out)),
         snd (fst out) ++ [Fs.ToCsv output_file (fst (fst out))],
         snd out)
    end.
Proof.
  unfold scrape_companies_linkedin.
  destruct (linkedin_companies rows) as [| company companies];
    [reflexivity |].
  cbv beta iota.
  destruct (scrape_loop world (company :: companies) 0 [] [] [])
    as [[results files] browser].
  reflexivity.
Qed.

(** X6.  When the table has a company with a link, the rows returned are
    one for each company with a link, in the order of the table, with the
    index, the title and the batch of the company, whatever the attempts
    meet; and they are the rows written to the output file, last. *)
Theorem one_result_for_each_link
        (world : nat -> nat -> attempt_outcome) (rows : list input_row)
        (results : list result_row) (files : list (Fs.event result_row))
        (browser : list event) :
  scrape_companies_linkedin world (Table rows)
  = (Some results, files, browser) ->
  map identity_of_result results
  = map identity_of_company (linkedin_companies rows)
  /\ (forall idx company c l,
         nth_error rows idx = Some company ->
         Linkedin_Link company = Some (c :: l) ->
         exists r, In r results /\ identity_of_result r
                                   = (idx, Title company, Batch company))
  /\ exists partials, files = partials ++ [Fs.ToCsv output_file results].
Proof.
  rewrite output.
  destruct (linkedin_companies rows) as [| company companies] eqn:Hlinked;
    [discriminate |].
  rewrite <- Hlinked. cbv zeta. intro H. injection H as Hresults Hfiles _.
  rewrite scrape_loop_results in Hresults. simpl in Hresults.
  assert (Hid : map identity_of_result results
                = map identity_of_company (linkedin_companies rows)).
  { rewrite <- Hresults, map_map.
    generalize 0 as i. generalize (linkedin_companies rows) as companies'.
    induction companies' as [| [idx c] companies' IH]; intro i; simpl;
      [reflexivity |].
    now rewrite IH. }
  split; [exact Hid |]. split.
  - intros idx c0 c l Hnth Hlink.
    assert (Hin : In (idx, c0) (linkedin_companies rows)).
    { apply linkedin_companies_spec. split; [exact Hnth |]. now exists c, l. }
    apply (in_map identity_of_company) in Hin. rewrite <- Hid in Hin.
    apply in_map_iff in Hin. destruct Hin as (r & Hr & Hin).
    exists r. split; [exact Hin | exact Hr].
  - eexists. rewrite <- Hfiles. rewrite scrape_loop_results. simpl.
    rewrite Hresults. reflexivity.
Qed.

Lemma one_result_for_each_link_witness :
  exists results,
    fst (fst (scrape_companies_linkedin no_driver (Table two_rows)))
    = Some results
    /\ map identity_of_result results
       = [(1, VStr (lit "Beta"), lit "Summer 2025")].
Proof.
  eexists. split; [vm_compute; reflexivity |].
  refine (proj1 (@one_result_for_each_link
                   no_driver two_rows _ _ _ _)).
  vm_compute. reflexivity.
Defined.

(** X7.  Every file written by the batch is written in place, and holds
    the rows of the results so far: the file written after [n] companies,
    [n] a multiple of 10, holds the first [n] rows of the results. *)
Theorem partial_files_hold_prefixes
        (world : nat -> nat -> attempt_outcome) (rows : list input_row)
        (results : list result_row) (files : list (Fs.event result_row))
        (browser : list event) (e : Fs.event result_row) :
  scrape_companies_linkedin world (Table rows)
  = (Some results, files, browser) ->
  In e files ->
  e = Fs.ToCsv output_file results
  \/ exists n,
      0 < n <= length results /\ n mod 10 = 0
      /\ e = Fs.ToCsv (partial_file n) (firstn n results).
Proof.
  rewrite output.
  destruct (linkedin_companies rows) as [| company companies] eqn:Hlinked;
    [discriminate |].
  rewrite <- Hlinked. cbv zeta. intro H. injection H as Hresults Hfiles _.
  destruct (@scrape_loop_files world (linkedin_companies rows) 0 [] [] []
                               eq_refl)
    as (partials & Hpartials & Hall).
  rewrite Hpartials, Hresults in Hfiles. simpl in Hfiles. subst files.
  rewrite Hresults in Hall.
  intro Hin. apply in_app_or in Hin. destruct Hin as [Hin | [<- | []]];
    [| now left].
  right. destruct (Hall e Hin) as (n & Hn & Hmod & ->).
  exists n. split; [| auto].
  rewrite <- Hresults, scrape_loop_results. simpl app.
  rewrite length_map, length_combine, length_seq, Nat.min_id. lia.
Qed.

Lemma partial_files_hold_prefixes_witness :
  exists results files,
    fst (scrape_companies_linkedin no_driver (Table ten_rows))
    = (Some results, files)
    /\ length files = 2
    /\ forall e, In e files ->
         e = Fs.ToCsv output_file results
         \/ exists n,
             0 < n <= length results /\ n mod 10 = 0
             /\ e = Fs.ToCsv (partial_file n) (firstn n results).
Proof.
  eexists _, _. split; [vm_compute; reflexivity |].
  split; [reflexivity |].
  intros e He.
  refine (@partial_files_hold_prefixes no_driver ten_rows _ _ _ e _ He).
  vm_compute. reflexivity.
Defined.

Lemma one_company_sessions world i company :
  exists url fetched,
    snd (scraped world i company) = flat_map (session url) fetched
    /\ length fetched <= 2
    /\ startswith (lit "http") url = true.
Proof.
  unfold scraped, link_of.
  destruct (Linkedin_Link (snd company)) as [given |].
  - destruct (sessions_are_bounded_and_released
                (world i) given (Batch (snd company)) max_retries)
      as (url & fetched & H1 & H2 & H3 & _).
    now exists url, fetched.
  - exists (lit "http"), []. repeat split; auto.
Qed.

Lemma loop_sessions world :
  forall companies i,
    exists sessions : list (str * list bool),
      flat_map (fun jc => snd (scraped world (fst jc) (snd jc)))
               (combine (seq i (length companies)) companies)
      = flat_map (fun s => flat_map (session (fst s)) (snd s)) sessions
      /\ length sessions = length companies
      /\ forall s, In s sessions ->
                   length (snd s) <= 2
                   /\ startswith (lit "http") (fst s) = true.
Proof.
  induction companies as [| company companies IH]; intro i.
  - exists []. repeat split; auto; contradiction.
  - destruct (IH (S i)) as (sessions & Hlog & Hlen & Hall).
    destruct (one_company_sessions world i company)
      as (url & fetched & Hone & Hbound & Hhttp).
    exists ((url, fetched) :: sessions). split; [| split].
    + cbn [length seq combine flat_map fst snd].
      now rewrite Hlog, Hone.
    + simpl. now rewrite Hlen.
    + intros s [<- | Hs]; [split; assumption | now apply Hall].
Qed.

(** X8.  The browser is asked for nothing but the sessions of the
    companies with a link, one company after the other: for each, at most
    two drivers, each driver that is there asked for one page that starts
    with "http" and then ended.  Without a file, without the column of the
    links or without a link, the browser is asked for nothing and no file
    is written. *)
Theorem browser_serves_linked_companies_only
        (world : nat -> nat -> attempt_outcome) (csv : input) :
  let out := scrape_companies_linkedin world csv in
  (exists sessions : list (str * list bool),
      snd out
      = flat_map (fun s => flat_map (session (fst s)) (snd s)) sessions
      /\ length sessions
         = match csv with
           | Table rows => length (linkedin_companies rows)
           | _ => 0
           end
      /\ forall s, In s sessions ->
                   length (snd s) <= 2
                   /\ startswith (lit "http") (fst s) = true)
  /\ (fst (fst out) = None -> snd (fst out) = [] /\ snd out = []).
Proof.
  cbv zeta. destruct csv as [| | rows];
    try (split; [exists []; repeat split; auto; contradiction | auto]).
  rewrite output.
  destruct (linkedin_companies rows) as [| company companies] eqn:Hlinked.
  { split; [exists []; repeat split; auto; contradiction | auto]. }
  rewrite <- Hlinked. cbv zeta. split; [| discriminate].
  cbn [snd]. rewrite scrape_loop_browser. cbn [app].
  apply loop_sessions.
Qed.

End LinkedInScraperBatchFacts.
